(** * Figment pixel colour counter: a shallow embedding of [main.py]

    The script assigns every distinct pixel colour of an image to the
    nearest colour of a small palette and adds up the pixel counts.  This
    file embeds [get_color_name], [analyze_image_colors] and the palette
    constant [target_colors], together with the pieces of Python and NumPy
    they rest on (insertion-ordered dictionaries, [numpy.unique], the
    scalar arithmetic of NumPy 1.x and of NumPy 2, float division and the
    [{:.6f}] format), and proves the properties of the classification
    step. *)

From Stdlib Require Import ZArith List String Ascii Bool Lia.
From Stdlib Require Import Permutation Sorted.
From Stdlib Require Import SpecFloat.
Import ListNotations.

Open Scope Z_scope.

(** ** Exceptions and results *)

(** [KeyError], [ZeroDivisionError], [TypeError], [OverflowError] and
    [ValueError] are the Python exceptions the embedded statements can
    raise ([TypeError] only where a reference holds an object of the wrong
    kind, [OverflowError] where NumPy 2 converts a Python integer to
    [uint8], [ValueError] in [webcolors.hex_to_rgb]).  [InvalidPalette],
    [EmptyPalette] and [EmptyImage] are the error kinds the specification
    names; no statement of [main.py] raises them, they are here so that
    statements about them can be written down. *)
Inductive exn : Type :=
| KeyError
| ZeroDivisionError
| TypeError
| OverflowError
| ValueError
| InvalidPalette
| EmptyPalette
| EmptyImage.

Inductive result (A : Type) : Type :=
| Ok (a : A)
| Raise (e : exn).

Arguments Ok {A} a.
Arguments Raise {A} e.

Definition bind {A B : Type} (r : result A) (k : A -> result B) : result B :=
  match r with
  | Ok a => k a
  | Raise e => Raise e
  end.

Notation "x <- r ;; k" := (bind r (fun x => k))
  (at level 61, r at next level, right associativity).
Notation "' p <- r ;; k" := (bind r (fun x => let p := x in k))
  (at level 61, p pattern, r at next level, right associativity).

(** A [for] loop whose body may raise: the first exception ends the loop. *)
Fixpoint for_each {A S : Type} (body : S -> A -> result S) (items : list A)
  (s : S) : result S :=
  match items with
  | [] => Ok s
  | x :: rest => s' <- body s x ;; for_each body rest s'
  end.

(** ** Insertion-ordered dictionaries with string keys *)

Module PyDict.

Section Dict.
Context {V : Type}.

(** A Python [dict]: the items in insertion order.  A dictionary never
    holds a key twice, which [wf] states. *)
Definition dict : Type := list (string * V).

Definition keys (d : dict) : list string := map fst d.
Definition values (d : dict) : list V := map snd d.
Definition wf (d : dict) : Prop := NoDup (keys d).

(** [d.get(k)], with [None] for a missing key. *)
Fixpoint get (k : string) (d : dict) : option V :=
  match d with
  | [] => None
  | (k', v) :: d' => if String.eqb k k' then Some v else get k d'
  end.

(** [k in d]; the key may be Python's [None], which is no string. *)
Definition mem (k : option string) (d : dict) : bool :=
  match k with
  | None => false
  | Some k =>
      match get k d with
      | Some _ => true
      | None => false
      end
  end.

(** [d[k]]: a missing key raises [KeyError]. *)
Definition getitem (k : string) (d : dict) : result V :=
  match get k d with
  | Some v => Ok v
  | None => Raise KeyError
  end.

(** [d[k] = v]: a key already there keeps its place and takes the new
    value, a new key goes to the end. *)
Fixpoint set (k : string) (v : V) (d : dict) : dict :=
  match d with
  | [] => [(k, v)]
  | (k', v') :: d' =>
      if String.eqb k k' then (k', v) :: d' else (k', v') :: set k v d'
  end.

(** A dictionary display [{k1: v1, k2: v2, ...}] and a comprehension
    [{k: v for ...}]: the items are stored one after the other. *)
Definition of_items (items : list (string * V)) : dict :=
  fold_left (fun d kv => set (fst kv) (snd kv) d) items [].
End Dict.

Arguments dict V : clear implicits.

End PyDict.

Import PyDict.

(** ** NumPy scalars *)

Module Np.

(** A signed 64-bit integer: the value is kept in [-2^63, 2^63). *)
Definition wrap64 (z : Z) : Z := (z + 2 ^ 63) mod 2 ^ 64 - 2 ^ 63.

Definition sub64 (a b : Z) : Z := wrap64 (a - b).
Definition add64 (a b : Z) : Z := wrap64 (a + b).
Definition sqr64 (a : Z) : Z := wrap64 (a * a).

End Np.

(** ** Colours *)

(** An RGB triplet [(r, g, b)]. *)
Definition rgb : Type := (Z * Z * Z)%type.

Definition red (c : rgb) : Z := fst (fst c).
Definition green (c : rgb) : Z := snd (fst c).
Definition blue (c : rgb) : Z := snd c.

(** The components of a pixel of an 8-bit RGB image, and of a palette
    colour made by [hex_to_rgb], lie in [0, 255]. *)
Definition u8 (z : Z) : Prop := 0 <= z <= 255.
Definition rgb8 (c : rgb) : Prop := u8 (red c) /\ u8 (green c) /\ u8 (blue c).

(** ** [get_color_name] *)

(** [sum([(a - b) ** 2 for a, b in zip(rgb_triplet, target_rgb)])].

    [rgb_triplet] is a row of the [uint8] array of the image, so [a] is a
    NumPy [uint8] scalar, and [b] is a Python integer.  This is the
    expression under the scalar promotion of NumPy 1.x: there the
    difference of a [uint8] scalar and a Python integer is an [int64], and
    the square and the sum (which starts from Python's [0]) are [int64]
    too.  From NumPy 2 on the same expression stays in [uint8]: [dist8]
    and [dist_np] below give it under both promotions. *)
Definition dist (rgb_triplet target_rgb : rgb) : Z :=
  let '(a1, a2, a3) := rgb_triplet in
  let '(b1, b2, b3) := target_rgb in
  Np.add64 (Np.add64 (Np.add64 0 (Np.sqr64 (Np.sub64 a1 b1)))
                     (Np.sqr64 (Np.sub64 a2 b2)))
           (Np.sqr64 (Np.sub64 a3 b3)).

(** [dist < min_distance], where [min_distance] starts as [float('inf')]
    ([None] here) and is an integer afterwards. *)
Definition lt_min (d : Z) (min_distance : option Z) : bool :=
  match min_distance with
  | None => true
  | Some m => d <? m
  end.

(** The body of the loop over [target_colors.items()]; the state is
    [(min_distance, closest_color)]. *)
Definition scan (rgb_triplet : rgb) (st : option Z * option string)
  (item : string * rgb) : option Z * option string :=
  let d := dist rgb_triplet (snd item) in
  if lt_min d (fst st) then (Some d, Some (fst item)) else st.

(** The result is [None] when no colour was closer than infinity. *)
Definition get_color_name (rgb_triplet : rgb) (target_colors : dict rgb)
  : option string :=
  snd (fold_left (scan rgb_triplet) target_colors (None, None)).

(** What the scan of [get_color_name] holds after the entries [seen]:
    nothing before the first entry, and afterwards the first of the entries
    at the least distance. *)
Definition scanned (c : rgb) (seen : dict rgb)
  (st : option Z * option string) : Prop :=
  (seen = [] /\ st = (None, None)) \/
  exists i name target,
    nth_error seen i = Some (name, target) /\
    st = (Some (dist c target), Some name) /\
    (forall j e, nth_error seen j = Some e -> dist c target <= dist c (snd e)) /\
    (forall j e, (j < i)%nat -> nth_error seen j = Some e ->
                 dist c target < dist c (snd e)).

(** ** [numpy.unique] and the pixel array *)

(** [data.reshape(-1, data.shape[-1])]: the rows of the image one after the
    other, one RGB triplet per pixel. *)
Definition reshape (data : list (list rgb)) : list rgb := List.concat data.

(** Rows are ordered lexicographically. *)
Definition rgb_compare (x y : rgb) : comparison :=
  match red x ?= red y with
  | Eq =>
      match green x ?= green y with
      | Eq => blue x ?= blue y
      | c => c
      end
  | c => c
  end.

(** One more occurrence of [c] in a histogram kept in ascending order. *)
Fixpoint tally (c : rgb) (h : list (rgb * Z)) : list (rgb * Z) :=
  match h with
  | [] => [(c, 1)]
  | (c', n) :: h' =>
      match rgb_compare c c' with
      | Eq => (c', n + 1) :: h'
      | Lt => (c, 1) :: h
      | Gt => (c', n) :: tally c h'
      end
  end.

Definition histogram (rows : list rgb) : list (rgb * Z) :=
  fold_left (fun h c => tally c h) rows [].

(** [np.unique(rows, axis=0, return_counts=True)]: the sorted unique rows
    and the number of times each of them comes up. *)
Definition np_unique (rows : list rgb) : list rgb * list Z :=
  split (histogram rows).

(** ** Float division and the [{:.6f}] format *)

Module Float64.

Definition prec : Z := 53.
Definition emax : Z := 1024.

(** Conversion of a 64-bit integer to binary64, to nearest even. *)
Definition of_int (z : Z) : spec_float := binary_normalize prec emax z 0 false.

(** [a / b] of two NumPy integers: both are converted, then divided. *)
Definition true_divide (a b : Z) : spec_float :=
  SFdiv prec emax (of_int a) (of_int b).

(** [n / d] rounded to the nearest integer, ties to even ([0 <= n], [0 < d]). *)
Definition div_half_even (n d : Z) : Z :=
  let q := n / d in
  match 2 * (n mod d) ?= d with
  | Lt => q
  | Gt => q + 1
  | Eq => if Z.even q then q else q + 1
  end.

(** [m * 2^e * 10^6], correctly rounded to an integer. *)
Definition micro (m e : Z) : Z :=
  if 0 <=? e then m * 2 ^ e * 10 ^ 6
  else div_half_even (m * 10 ^ 6) (2 ^ (- e)).

Definition digit (z : Z) : ascii := ascii_of_nat (48 + Z.to_nat (z mod 10)).

(** The last [n] decimal digits of [z], in front of [acc]. *)
Fixpoint digits (n : nat) (z : Z) (acc : string) : string :=
  match n with
  | O => acc
  | S n' => digits n' (z / 10) (String (digit z) acc)
  end.

(** The decimal digits of [z >= 0], without leading zeros ("0" for 0). *)
Definition decimal (z : Z) : string :=
  digits (Nat.max 1 (Z.to_nat (Z.log2 z / 3 + 1))) z EmptyString.

Fixpoint strip_zeros (s : string) : string :=
  match s with
  | String c (String _ _ as s') =>
      if Ascii.eqb c "0"%char then strip_zeros s' else s
  | _ => s
  end.

Definition sign (s : bool) : string := if s then "-"%string else EmptyString.

(** ["{:.6f}".format(x)]: the exact value of the float, rounded to six
    decimal places, ties to even. *)
Definition format_6f (x : spec_float) : string :=
  match x with
  | S754_zero s => (sign s ++ "0.000000")%string
  | S754_infinity s => (sign s ++ "inf")%string
  | S754_nan => "nan"%string
  | S754_finite s m e =>
      let n := micro (Zpos m) e in
      (sign s ++ strip_zeros (decimal (n / 10 ^ 6)) ++ "."
         ++ digits 6 (n mod 10 ^ 6) EmptyString)%string
  end.

End Float64.

(** ** [analyze_image_colors] *)

(** [count / total_pixels].  Both numbers are Python's [0] when the loop
    over the unique colours has not run, and the division then raises
    [ZeroDivisionError]; after the first iteration [total_pixels] is a
    NumPy [int64], at least 1, and the quotient is a binary64 float. *)
Definition truediv (count total_pixels : Z) : result spec_float :=
  if total_pixels =? 0 then Raise ZeroDivisionError
  else Ok (Float64.true_divide count total_pixels).

(** [{color: 0 for color in target_colors}] *)
Definition zero_counts (target_colors : dict rgb) : dict Z :=
  of_items (map (fun color => (color, 0)) (keys target_colors)).

(** The body of the loop over [zip(unique, counts)]; the state is
    [(color_counts, total_pixels)].  [color_counts[color_name] += count]
    reads the entry, which raises [KeyError] when there is none, and
    stores the sum. *)
Definition count_color (target_colors : dict rgb) (st : dict Z * Z)
  (item : rgb * Z) : result (dict Z * Z) :=
  let '(color_counts, total_pixels) := st in
  let '(color, count) := item in
  let color_name := get_color_name color target_colors in
  color_counts' <-
    (if mem color_name target_colors then
       match color_name with
       | Some name =>
           old <- getitem name color_counts ;;
           Ok (set name (old + count) color_counts)
       | None => Ok color_counts
       end
     else Ok color_counts) ;;
  Ok (color_counts', total_pixels + count).

(** One item of the comprehension
    [{color + '_percent': "{:.6f}".format(count / total_pixels) ...}]. *)
Definition percent_item (total_pixels : Z) (d : dict string)
  (item : string * Z) : result (dict string) :=
  q <- truediv (snd item) total_pixels ;;
  Ok (set (fst item ++ "_percent")%string (Float64.format_6f q) d).

(** Everything after the histogram is taken: the two dictionaries of the
    result, from the items of [zip(unique, counts)] in the order given. *)
Definition classify (hist : list (rgb * Z)) (target_colors : dict rgb)
  : result (dict Z * dict string) :=
  ' (color_counts, total_pixels) <-
      for_each (count_color target_colors) hist (zero_counts target_colors, 0) ;;
  color_percentages <-
      for_each (percent_item total_pixels) color_counts [] ;;
  Ok (color_counts, color_percentages).

(** [analyze_image_colors], from the array [data] of the decoded image
    ([np.array(img)] after [img.convert('RGB')]: the rows of the image, each
    a list of RGB triplets) on. *)
Definition analyze_image_colors (data : list (list rgb))
  (target_colors : dict rgb) : result (dict Z * dict string) :=
  let '(unique, counts) := np_unique (reshape data) in
  classify (combine unique counts) target_colors.

(** ** The palette *)

Definition hex_digit (c : ascii) : option Z :=
  let n := Z.of_nat (nat_of_ascii c) in
  if (48 <=? n) && (n <=? 57) then Some (n - 48)
  else if (97 <=? n) && (n <=? 102) then Some (n - 87)
  else if (65 <=? n) && (n <=? 70) then Some (n - 55)
  else None.

Fixpoint hex_digits (s : string) : option (list Z) :=
  match s with
  | EmptyString => Some []
  | String c s' =>
      match hex_digit c, hex_digits s' with
      | Some d, Some l => Some (d :: l)
      | _, _ => None
      end
  end.

(** One line feed at the very end is not part of the value: the pattern
    of the library ends in [$]. *)
Fixpoint strip_newline (s : string) : string :=
  match s with
  | EmptyString => EmptyString
  | String c EmptyString => if Ascii.eqb c "010"%char then EmptyString else s
  | String c s' => String c (strip_newline s')
  end.

(** [webcolors.hex_to_rgb]: the value has to match
    [^#([a-fA-F0-9]{3}|[a-fA-F0-9]{6})$], a digit of the short form standing
    for itself twice; [None] for anything else, where the library raises
    [ValueError]. *)
Definition hex_to_rgb (hex_value : string) : option rgb :=
  match strip_newline hex_value with
  | String "#" digits =>
      match hex_digits digits with
      | Some [r1; r2; g1; g2; b1; b2] =>
          Some (16 * r1 + r2, 16 * g1 + g2, 16 * b1 + b2)
      | Some [r; g; b] => Some (16 * r + r, 16 * g + g, 16 * b + b)
      | _ => None
      end
  | _ => None
  end.

(** A dictionary display whose values are [hex_to_rgb] calls; [None] when
    one of the calls raises. *)
Fixpoint hex_items (items : list (string * string))
  : option (list (string * rgb)) :=
  match items with
  | [] => Some []
  | (name, hex) :: rest =>
      match hex_to_rgb hex, hex_items rest with
      | Some c, Some l => Some ((name, c) :: l)
      | _, _ => None
      end
  end.

(** The colours of the game, as the script lists them. *)
Definition target_hex : list (string * string) :=
  [ ("hotpink", "#ff69b4"); ("darkcyan", "#008b8b");
    ("lightgray", "#d3d3d3"); ("blue", "#005DBA");
    ("white", "#ffffff") ]%string.

Definition target_colors : dict rgb :=
  match hex_items target_hex with
  | Some items => of_items items
  | None => []
  end.

(** The statement that builds the palette, for any names and hexadecimal
    values: the display [{name: webcolors.hex_to_rgb(hex), ...}] computes
    and stores the entries one after the other, and a value that
    [hex_to_rgb] does not take makes it raise [ValueError]. *)
Definition palette_display (items : list (string * string))
  : result (dict rgb) :=
  match hex_items items with
  | Some entries => Ok (of_items entries)
  | None => Raise ValueError
  end.

(** ** The specification's distance *)

(** The squared Euclidean distance of the specification, over the
    integers: [(c.r-p.r)^2 + (c.g-p.g)^2 + (c.b-p.b)^2]. *)
Definition spec_dist (c p : rgb) : Z :=
  (red c - red p) ^ 2 + (green c - green p) ^ 2 + (blue c - blue p) ^ 2.

(** ** The same function over a store of mutable objects

    Python dictionaries and arrays are mutable objects reached through
    references.  Here the objects live in a store, the arguments of
    [analyze_image_colors] are references into it, and every read and
    write of the function goes through the store, so that what the call
    changes can be read off the final store. *)

Module Store.

Inductive obj : Type :=
| Array (data : list (list rgb))
| DictRgb (d : dict rgb)
| DictInt (d : dict Z)
| DictStr (d : dict string).

(** The object of reference [l] is the [l]-th of the store. *)
Definition heap : Type := list obj.

(** A computation reads and writes the store; an exception leaves the
    store as it was when it was raised. *)
Definition M (A : Type) : Type := heap -> result A * heap.

Definition ret {A : Type} (a : A) : M A := fun h => (Ok a, h).

Definition lift {A : Type} (r : result A) : M A := fun h => (r, h).

Definition mbind {A B : Type} (m : M A) (k : A -> M B) : M B :=
  fun h =>
    match m h with
    | (Ok a, h') => k a h'
    | (Raise e, h') => (Raise e, h')
    end.

Notation "x <~ m ;; k" := (mbind m (fun x => k))
  (at level 61, m at next level, right associativity).

(** A new object gets the next free reference. *)
Definition new (o : obj) : M nat :=
  fun h => (Ok (List.length h), h ++ [o]).

Definition read (l : nat) : M obj :=
  fun h =>
    match nth_error h l with
    | Some o => (Ok o, h)
    | None => (Raise TypeError, h)
    end.

Fixpoint update (l : nat) (o : obj) (h : heap) : heap :=
  match h, l with
  | [], _ => []
  | _ :: t, O => o :: t
  | x :: t, S l' => x :: update l' o t
  end.

Definition write (l : nat) (o : obj) : M unit :=
  fun h => (Ok tt, update l o h).

Definition read_array (l : nat) : M (list (list rgb)) :=
  o <~ read l ;;
  match o with Array a => ret a | _ => lift (Raise TypeError) end.

Definition read_rgb (l : nat) : M (dict rgb) :=
  o <~ read l ;;
  match o with DictRgb d => ret d | _ => lift (Raise TypeError) end.

Definition read_int (l : nat) : M (dict Z) :=
  o <~ read l ;;
  match o with DictInt d => ret d | _ => lift (Raise TypeError) end.

Definition read_str (l : nat) : M (dict string) :=
  o <~ read l ;;
  match o with DictStr d => ret d | _ => lift (Raise TypeError) end.

Fixpoint for_each_at {A S : Type} (body : S -> A -> M S) (items : list A)
  (s : S) : M S :=
  match items with
  | [] => ret s
  | x :: rest => s' <~ body s x ;; for_each_at body rest s'
  end.

(** The body of the counting loop: [target_colors] and [color_counts] are
    references, [total_pixels] is a local integer. *)
Definition count_color_at (target_colors color_counts : nat)
  (total_pixels : Z) (item : rgb * Z) : M Z :=
  palette <~ read_rgb target_colors ;;
  let color_name := get_color_name (fst item) palette in
  _ <~ (if mem color_name palette then
          match color_name with
          | Some name =>
              counts <~ read_int color_counts ;;
              old <~ lift (getitem name counts) ;;
              write color_counts (DictInt (set name (old + snd item) counts))
          | None => ret tt
          end
        else ret tt) ;;
  ret (total_pixels + snd item).

Definition percent_item_at (color_percentages : nat) (total_pixels : Z)
  (_ : unit) (item : string * Z) : M unit :=
  q <~ lift (truediv (snd item) total_pixels) ;;
  d <~ read_str color_percentages ;;
  write color_percentages
    (DictStr (set (fst item ++ "_percent")%string (Float64.format_6f q) d)).

(** [analyze_image_colors] on references: the result is the pair of the
    references of the two new dictionaries. *)
Definition analyze_image_colors_at (data target_colors : nat) : M (nat * nat) :=
  pixels <~ read_array data ;;
  let '(unique, counts) := np_unique (reshape pixels) in
  palette <~ read_rgb target_colors ;;
  color_counts <~ new (DictInt (zero_counts palette)) ;;
  total_pixels <~
    for_each_at (count_color_at target_colors color_counts)
      (combine unique counts) 0 ;;
  items <~ read_int color_counts ;;
  color_percentages <~ new (DictStr []) ;;
  _ <~ for_each_at (percent_item_at color_percentages total_pixels) items tt ;;
  ret (color_counts, color_percentages).

(** What a call leaves behind, read back through the result's references. *)
Definition outcome (r : result (nat * nat) * heap)
  : result (dict Z * dict string) :=
  match r with
  | (Ok (c, p), h) =>
      match nth_error h c, nth_error h p with
      | Some (DictInt cd), Some (DictStr pd) => Ok (cd, pd)
      | _, _ => Raise TypeError
      end
  | (Raise e, _) => Raise e
  end.

End Store.

(** ** The two scalar promotions of NumPy

    The script names no version of NumPy, and line 50 does not compute
    the same number under all of them.  [rgb_triplet] holds [uint8]
    scalars and [target_rgb] Python integers.  Under the promotion of
    NumPy 1.x ([ValueBased]) their difference is an [int64], which is what
    [dist] computes.  Under the promotion of NumPy 2 ([WeakScalar]) the
    Python integer is converted to [uint8], which raises [OverflowError]
    outside [0, 255], and the difference, the square and the sum stay in
    [uint8] and wrap around modulo 256. *)

Inductive promotion : Type :=
| ValueBased
| WeakScalar.

Definition in_u8 (z : Z) : bool := (0 <=? z) && (z <=? 255).

Definition rgb_in_u8 (t : rgb) : bool :=
  in_u8 (red t) && in_u8 (green t) && in_u8 (blue t).

Definition palette_in_u8 (target_colors : dict rgb) : bool :=
  forallb (fun e => rgb_in_u8 (snd e)) target_colors.

Module Np8.

(** An unsigned 8-bit integer: the value is kept in [0, 256). *)
Definition wrap8 (z : Z) : Z := z mod 256.

Definition sub8 (a b : Z) : Z := wrap8 (a - b).
Definition add8 (a b : Z) : Z := wrap8 (a + b).
Definition sqr8 (a : Z) : Z := wrap8 (a * a).

End Np8.

(** Line 50 in [uint8]. *)
Definition dist8 (rgb_triplet target_rgb : rgb) : Z :=
  let '(a1, a2, a3) := rgb_triplet in
  let '(b1, b2, b3) := target_rgb in
  Np8.add8 (Np8.add8 (Np8.add8 0 (Np8.sqr8 (Np8.sub8 a1 b1)))
                     (Np8.sqr8 (Np8.sub8 a2 b2)))
           (Np8.sqr8 (Np8.sub8 a3 b3)).

(** Line 50 under either promotion. *)
Definition dist_np (np : promotion) (rgb_triplet target_rgb : rgb) : result Z :=
  match np with
  | ValueBased => Ok (dist rgb_triplet target_rgb)
  | WeakScalar =>
      if rgb_in_u8 target_rgb then Ok (dist8 rgb_triplet target_rgb)
      else Raise OverflowError
  end.

(** The body of the loop of [get_color_name] under either promotion. *)
Definition scan_np (np : promotion) (rgb_triplet : rgb)
  (st : option Z * option string) (item : string * rgb)
  : result (option Z * option string) :=
  d <- dist_np np rgb_triplet (snd item) ;;
  Ok (if lt_min d (fst st) then (Some d, Some (fst item)) else st).

(** [get_color_name] under either promotion. *)
Definition get_color_name_np (np : promotion) (rgb_triplet : rgb)
  (target_colors : dict rgb) : result (option string) :=
  st <- for_each (scan_np np rgb_triplet) target_colors (None, None) ;;
  Ok (snd st).

(** The loop body of [analyze_image_colors] under either promotion. *)
Definition count_color_np (np : promotion) (target_colors : dict rgb)
  (st : dict Z * Z) (item : rgb * Z) : result (dict Z * Z) :=
  let '(color_counts, total_pixels) := st in
  let '(color, count) := item in
  color_name <- get_color_name_np np color target_colors ;;
  color_counts' <-
    (if mem color_name target_colors then
       match color_name with
       | Some name =>
           old <- getitem name color_counts ;;
           Ok (set name (old + count) color_counts)
       | None => Ok color_counts
       end
     else Ok color_counts) ;;
  Ok (color_counts', total_pixels + count).

Definition classify_np (np : promotion) (hist : list (rgb * Z))
  (target_colors : dict rgb) : result (dict Z * dict string) :=
  ' (color_counts, total_pixels) <-
      for_each (count_color_np np target_colors) hist
        (zero_counts target_colors, 0) ;;
  color_percentages <-
      for_each (percent_item total_pixels) color_counts [] ;;
  Ok (color_counts, color_percentages).

(** [analyze_image_colors] under either promotion, from the array on. *)
Definition analyze_image_colors_np (np : promotion) (data : list (list rgb))
  (target_colors : dict rgb) : result (dict Z * dict string) :=
  let '(unique, counts) := np_unique (reshape data) in
  classify_np np (combine unique counts) target_colors.

(** The distance that is compared, as a function of the exact one. *)
Definition compared (np : promotion) (c t : rgb) : Z :=
  match np with
  | ValueBased => spec_dist c t
  | WeakScalar => spec_dist c t mod 256
  end.

(** The scan of [get_color_name] over any distance. *)
Definition scan_by (d : rgb -> rgb -> Z) (rgb_triplet : rgb)
  (st : option Z * option string) (item : string * rgb)
  : option Z * option string :=
  let x := d rgb_triplet (snd item) in
  if lt_min x (fst st) then (Some x, Some (fst item)) else st.

Definition name_by (d : rgb -> rgb -> Z) (rgb_triplet : rgb)
  (target_colors : dict rgb) : option string :=
  snd (fold_left (scan_by d rgb_triplet) target_colors (None, None)).

(** What the scan over the distance [d] holds after the entries [seen]. *)
Definition scanned_by (d : rgb -> rgb -> Z) (c : rgb) (seen : dict rgb)
  (st : option Z * option string) : Prop :=
  (seen = [] /\ st = (None, None)) \/
  exists i name target,
    nth_error seen i = Some (name, target) /\
    st = (Some (d c target), Some name) /\
    (forall j e, nth_error seen j = Some e -> d c target <= d c (snd e)) /\
    (forall j e, (j < i)%nat -> nth_error seen j = Some e ->
                 d c target < d c (snd e)).

(** A palette with a third colour whose squared distance to [(1, 0, 0)] is
    256. *)
Definition wrap_palette : dict rgb :=
  [("first", (0, 0, 0)); ("second", (2, 0, 0)); ("far", (17, 0, 0))]%string.

(** ** Closed forms of the two loops *)

(** Python's [sum]: the numbers are added from the left, starting at 0. *)
Definition sum (l : list Z) : Z := fold_left Z.add l 0.

Arguments sum l : simpl never.

(** What one iteration of the counting loop does to [color_counts] when
    nothing is raised: the count goes to the entry of the name found. *)
Definition credit (color_name : option string) (count : Z)
  (color_counts : dict Z) : dict Z :=
  match color_name with
  | Some name =>
      match get name color_counts with
      | Some old => set name (old + count) color_counts
      | None => color_counts
      end
  | None => color_counts
  end.

Definition credit_all (target_colors : dict rgb) (hist : list (rgb * Z))
  (color_counts : dict Z) : dict Z :=
  fold_left
    (fun cc item => credit (get_color_name (fst item) target_colors) (snd item) cc)
    hist color_counts.

(** The counts after the loop when the colours get the names [f] gives. *)
Definition credit_with (f : rgb -> option string) (hist : list (rgb * Z))
  (color_counts : dict Z) : dict Z :=
  fold_left (fun cc item => credit (f (fst item)) (snd item) cc)
    hist color_counts.

Definition named (target_colors : dict rgb) (name : string)
  (item : rgb * Z) : bool :=
  match get_color_name (fst item) target_colors with
  | Some n => String.eqb n name
  | None => false
  end.

(** The number of pixels whose colour [get_color_name] gives to [name]. *)
Definition assigned (target_colors : dict rgb) (name : string)
  (hist : list (rgb * Z)) : Z :=
  sum (map snd (filter (named target_colors name) hist)).

(** The entry of [color_percentages] made from an entry of [color_counts]. *)
Definition percent_entry (total_pixels : Z) (item : string * Z)
  : string * string :=
  ((fst item ++ "_percent")%string,
   Float64.format_6f (Float64.true_divide (snd item) total_pixels)).

(** The sign bit of a float; a NaN has none. *)
Definition is_negative (x : spec_float) : bool :=
  match x with
  | S754_zero s | S754_infinity s | S754_finite s _ _ => s
  | S754_nan => false
  end.

(** ** What [numpy.unique] is to return *)

Definition rgb_eqb (x y : rgb) : bool :=
  match rgb_compare x y with
  | Eq => true
  | _ => false
  end.

(** The number of rows equal to [c]. *)
Definition occurrences (c : rgb) (rows : list rgb) : Z :=
  Z.of_nat (List.length (filter (rgb_eqb c) rows)).

(** The count a histogram holds for [c]. *)
Definition count_in (c : rgb) (h : list (rgb * Z)) : Z :=
  sum (map snd (filter (fun item => rgb_eqb c (fst item)) h)).

(** The order of the rows of a histogram. *)
Definition key_lt (a b : rgb * Z) : Prop := rgb_compare (fst a) (fst b) = Lt.

(** ** Images and palettes used as examples *)

(** A 10 by 10 image that is white all over. *)
Definition monochrome : list (list rgb) :=
  repeat (repeat (255, 255, 255) 10%nat) 10%nat.

(** A 4 by 4 image: three rows of the palette's pink and a row of a colour
    next to black. *)
Definition two_colors : list (list rgb) :=
  repeat (repeat (255, 105, 180) 4%nat) 3%nat ++ [repeat (1, 1, 1) 4%nat].

(** Two colours at the same distance from [(1, 0, 0)]. *)
Definition tie_palette : dict rgb :=
  [("first", (0, 0, 0)); ("second", (2, 0, 0))]%string.

(** A store with the palette of the game and the two-colour image. *)
Definition example_store : Store.heap :=
  [Store.DictRgb target_colors; Store.Array two_colors].

(** ** [process_directory]

    The directory is given by what [os.listdir] returns for it, and the
    image decoder ([Image.open], [convert('RGB')] and [np.array]) by a
    function [open_image] from the path of a file to its pixel array, or
    to the exception raised.  File names are strings of ASCII characters. *)

(** [c.lower()] for one ASCII character. *)
Definition lower_char (c : ascii) : ascii :=
  let n := nat_of_ascii c in
  if ((65 <=? n) && (n <=? 90))%nat then ascii_of_nat (n + 32) else c.

(** [s.lower()] *)
Fixpoint lower (s : string) : string :=
  match s with
  | EmptyString => EmptyString
  | String c s' => String (lower_char c) (lower s')
  end.

(** [s.endswith(suffix)]: [suffix] is [s] or the end of the rest of [s]. *)
Fixpoint endswith (s suffix : string) : bool :=
  if String.eqb s suffix then true
  else
    match s with
    | EmptyString => false
    | String _ s' => endswith s' suffix
    end.

(** The test of the list comprehension: [f.lower().endswith('.png')]. *)
Definition is_png (f : string) : bool := endswith (lower f) ".png"%string.

(** [os.path.join(directory_path, filename)] on a POSIX system. *)
Definition path_join (a b : string) : string :=
  if String.prefix "/"%string b then b
  else if String.eqb a EmptyString || endswith a "/"%string then (a ++ b)%string
  else (a ++ "/" ++ b)%string.

(** A cell handed to [csv.writer]: a string or an integer. *)
Inductive cell : Type :=
| Text (s : string)
| Number (z : Z).

(** [analyze_image_colors(image_path, target_colors)], decoder included. *)
Definition analyze_image_path (open_image : string -> result (list (list rgb)))
  (image_path : string) (target_colors : dict rgb)
  : result (dict Z * dict string) :=
  data <- open_image image_path ;;
  analyze_image_colors data target_colors.

(** The same under either promotion. *)
Definition analyze_image_path_np (np : promotion)
  (open_image : string -> result (list (list rgb)))
  (image_path : string) (target_colors : dict rgb)
  : result (dict Z * dict string) :=
  data <- open_image image_path ;;
  analyze_image_colors_np np data target_colors.

(** [['Filename'] + [color + '_percent' for color in target_colors]
     + list(target_colors.keys())] *)
Definition headers (target_colors : dict rgb) : list cell :=
  [Text "Filename"%string]
  ++ map (fun color => Text (color ++ "_percent")%string) (keys target_colors)
  ++ map Text (keys target_colors).

(** [d.get(k, default)] *)
Definition get_default {V : Type} (k : string) (default : V) (d : dict V) : V :=
  match get k d with
  | Some v => v
  | None => default
  end.

(** The row of one image. *)
Definition row (filename : string) (target_colors : dict rgb)
  (color_counts : dict Z) (color_percentages : dict string) : list cell :=
  [Text filename]
  ++ map (fun color =>
            Text (get_default (color ++ "_percent")%string "0.00"%string
                    color_percentages))
       (keys target_colors)
  ++ map (fun color => Number (get_default color 0 color_counts))
       (keys target_colors).

(** The loop over the files: [written] holds the rows handed to the
    writer so far.  An exception ends the loop and leaves the rows
    written before it in the file. *)
Fixpoint write_rows (open_image : string -> result (list (list rgb)))
  (directory_path : string) (target_colors : dict rgb)
  (file_list : list string) (written : list (list cell))
  : list (list cell) * result unit :=
  match file_list with
  | [] => (written, Ok tt)
  | filename :: rest =>
      let image_path := path_join directory_path filename in
      match analyze_image_path open_image image_path target_colors with
      | Ok (color_counts, color_percentages) =>
          write_rows open_image directory_path target_colors rest
            (written
             ++ [row filename target_colors color_counts color_percentages])
      | Raise e => (written, Raise e)
      end
  end.

(** [process_directory]: the rows of the CSV file, and how the call ends. *)
Definition process_directory
  (open_image : string -> result (list (list rgb)))
  (listdir : list string) (directory_path : string)
  (target_colors : dict rgb) : list (list cell) * result unit :=
  let file_list := filter is_png listdir in
  write_rows open_image directory_path target_colors file_list
    [headers target_colors].

(** The row of a file whose analysis returns: its name, the values of the
    percentages and the values of the counts, as they stand in the two
    dictionaries of the result. *)
Definition image_row (open_image : string -> result (list (list rgb)))
  (directory_path : string) (target_colors : dict rgb) (filename : string)
  : list cell :=
  match analyze_image_path open_image (path_join directory_path filename)
          target_colors with
  | Ok (color_counts, color_percentages) =>
      [Text filename] ++ map Text (values color_percentages)
      ++ map Number (values color_counts)
  | Raise _ => []
  end.

(** The integer cells of a row. *)
Fixpoint numbers (r : list cell) : list Z :=
  match r with
  | [] => []
  | Number z :: r' => z :: numbers r'
  | Text _ :: r' => numbers r'
  end.

(** ** Counting pixel by pixel *)

(** Whether [get_color_name] gives the pixel to [name]. *)
Definition is_named (target_colors : dict rgb) (name : string) (pixel : rgb)
  : bool :=
  match get_color_name pixel target_colors with
  | Some n => String.eqb n name
  | None => false
  end.

(** The number of pixels that [get_color_name] gives to [name]. *)
Definition pixels_named (target_colors : dict rgb) (name : string)
  (pixels : list rgb) : Z :=
  Z.of_nat (List.length (filter (is_named target_colors name) pixels)).

(** A decoder for the examples: the two images under their paths. *)
Definition example_open (image_path : string) : result (list (list rgb)) :=
  if String.eqb image_path "./images/white.png"%string then Ok monochrome
  else if String.eqb image_path "./images/Card.PNG"%string then Ok two_colors
  else Ok [].

(** * Properties *)

(** ** Dictionaries *)

Section DictFacts.
Context {V : Type}.
Implicit Types (d : dict V) (k : string) (v : V).

Lemma get_none_iff k d : get k d = None <-> ~ In k (keys d).
Proof.
  induction d as [| [k' v'] d IH]; simpl.
  - tauto.
  - destruct (String.eqb_spec k k') as [-> | Hne].
    + split; [discriminate | intros H; exfalso; apply H; now left].
    + rewrite IH. split; intros H.
      * intros [E | I]; [now apply Hne | now apply H].
      * intros I; apply H; now right.
Qed.

Lemma get_some_in k v d : get k d = Some v -> In (k, v) d.
Proof.
  induction d as [| [k' v'] d IH]; simpl; [discriminate |].
  destruct (String.eqb_spec k k') as [-> | Hne].
  - intros [= ->]; now left.
  - intros H; right; now apply IH.
Qed.

Lemma in_get k v d : wf d -> In (k, v) d -> get k d = Some v.
Proof.
  unfold wf; induction d as [| [k' v'] d IH]; simpl; [tauto |].
  intros Hnd [E | I].
  - inversion E; subst. now rewrite String.eqb_refl.
  - inversion Hnd as [| ? ? Hnotin Hnd']; subst.
    destruct (String.eqb_spec k k') as [-> | Hne].
    + exfalso; apply Hnotin. change (In (fst (k', v)) (map fst d)).
      now apply in_map.
    + now apply IH.
Qed.

Lemma mem_in k d : mem (Some k) d = true <-> In k (keys d).
Proof.
  unfold mem. destruct (get k d) as [v |] eqn:E.
  - split; [intros _ | reflexivity].
    apply get_some_in in E. change k with (fst (k, v)). now apply in_map.
  - apply get_none_iff in E. split; [discriminate | tauto].
Qed.

Lemma keys_set k v d : In k (keys d) -> keys (set k v d) = keys d.
Proof.
  induction d as [| [k' v'] d IH]; simpl; [tauto |].
  intros H. destruct (String.eqb_spec k k') as [-> | Hne]; simpl.
  - reflexivity.
  - f_equal. apply IH. destruct H as [E | I]; [congruence | exact I].
Qed.

Lemma set_new k v d : ~ In k (keys d) -> set k v d = d ++ [(k, v)].
Proof.
  induction d as [| [k' v'] d IH]; simpl; intros H; [reflexivity |].
  destruct (String.eqb_spec k k') as [-> | Hne].
  - exfalso; apply H; now left.
  - f_equal. apply IH. intros I; apply H; now right.
Qed.

Lemma get_set_same k v d : get k (set k v d) = Some v.
Proof.
  induction d as [| [k' v'] d IH]; simpl.
  - now rewrite String.eqb_refl.
  - destruct (String.eqb k k') eqn:E; simpl; rewrite E; [reflexivity | exact IH].
Qed.

Lemma get_set_other k k' v d : k' <> k -> get k' (set k v d) = get k' d.
Proof.
  intros Hne. induction d as [| [k0 v0] d IH]; simpl.
  - destruct (String.eqb_spec k' k); [contradiction | reflexivity].
  - destruct (String.eqb_spec k k0) as [-> | Hk]; simpl.
    + destruct (String.eqb_spec k' k0); [contradiction | reflexivity].
    + destruct (String.eqb k' k0); [reflexivity | exact IH].
Qed.

Lemma keys_set_cases k v d :
  keys (set k v d) = if mem (Some k) d then keys d else keys d ++ [k].
Proof.
  destruct (mem (Some k) d) eqn:E.
  - apply keys_set, mem_in, E.
  - rewrite set_new.
    + unfold keys; now rewrite map_app.
    + intros I. apply mem_in in I. congruence.
Qed.

Lemma wf_set k v d : wf d -> wf (set k v d).
Proof.
  unfold wf. intros H. rewrite keys_set_cases.
  destruct (mem (Some k) d) eqn:E; [exact H |].
  apply NoDup_app; [exact H | constructor; [intros [] | constructor] |].
  intros x Hx [<- | []]. apply mem_in in Hx. congruence.
Qed.

Lemma fold_set_fresh (items : list (string * V)) d :
  NoDup (keys d ++ map fst items) ->
  fold_left (fun d kv => set (fst kv) (snd kv) d) items d = d ++ items.
Proof.
  revert d; induction items as [| [k v] items IH]; intros d H; simpl.
  - now rewrite app_nil_r.
  - simpl in H. rewrite set_new.
    + rewrite IH.
      * now rewrite <- app_assoc.
      * unfold keys. rewrite map_app, <- app_assoc. exact H.
    + intros I. apply NoDup_remove_2 in H. apply H, in_or_app. now left.
Qed.

(** Storing items whose keys differ pairwise gives the items themselves. *)
Lemma of_items_nodup (items : list (string * V)) :
  NoDup (map fst items) -> of_items items = items.
Proof.
  intros H. unfold of_items. now rewrite fold_set_fresh.
Qed.

Lemma wf_fold_set (items : list (string * V)) d :
  wf d -> wf (fold_left (fun d kv => set (fst kv) (snd kv) d) items d).
Proof.
  revert d; induction items as [| kv items IH]; intros d H; simpl.
  - exact H.
  - apply IH, wf_set, H.
Qed.

Lemma wf_of_items (items : list (string * V)) : wf (of_items items).
Proof. apply wf_fold_set. constructor. Qed.
End DictFacts.

(** ** 64-bit arithmetic on 8-bit components *)

Lemma wrap64_small (z : Z) : - 2 ^ 63 <= z < 2 ^ 63 -> Np.wrap64 z = z.
Proof.
  intros H. unfold Np.wrap64. rewrite Z.mod_small; lia.
Qed.

Lemma sqr_sub_u8 (a b : Z) :
  u8 a -> u8 b -> Np.sqr64 (Np.sub64 a b) = (a - b) ^ 2 /\ 0 <= (a - b) ^ 2 <= 65025.
Proof.
  unfold u8, Np.sqr64, Np.sub64. intros Ha Hb.
  rewrite (wrap64_small (a - b)) by lia.
  assert (Hd : - 255 <= a - b <= 255) by lia.
  assert (Hsq : 0 <= (a - b) * (a - b) <= 65025).
  { clear - Hd. set (d := a - b) in *. clearbody d. nia. }
  rewrite wrap64_small by lia.
  replace ((a - b) ^ 2) with ((a - b) * (a - b)) by ring.
  split; [reflexivity | exact Hsq].
Qed.

(** On 8-bit colours the 64-bit computation of the code is the exact
    squared Euclidean distance: nothing wraps around. *)
Lemma dist_exact (c p : rgb) : rgb8 c -> rgb8 p -> dist c p = spec_dist c p.
Proof.
  destruct c as [[a1 a2] a3], p as [[b1 b2] b3].
  unfold rgb8, spec_dist, dist, red, green, blue; cbn [fst snd].
  intros (H1 & H2 & H3) (K1 & K2 & K3).
  destruct (sqr_sub_u8 a1 b1 H1 K1) as [-> B1].
  destruct (sqr_sub_u8 a2 b2 H2 K2) as [-> B2].
  destruct (sqr_sub_u8 a3 b3 H3 K3) as [-> B3].
  unfold Np.add64. rewrite (wrap64_small (0 + _)) by lia.
  rewrite (wrap64_small (0 + _ + _)) by lia.
  rewrite wrap64_small by lia. ring.
Qed.

(** ** The scan of [get_color_name] *)

Section Scan.
Variable c : rgb.

Lemma scanned_step seen st item :
  scanned c seen st -> scanned c (seen ++ [item]) (scan c st item).
Proof.
  intros [[-> ->] | (i & name & target & Hi & -> & Hmin & Hfirst)]; right.
  - exists 0%nat, (fst item), (snd item). simpl.
    split; [now destruct item |]. split; [reflexivity |]. split.
    + intros [| j] e; simpl; [intros [= <-]; lia |].
      destruct j; discriminate.
    + intros j e Hj; lia.
  - unfold scan; simpl.
    assert (Hlen : (i < List.length seen)%nat)
      by (apply nth_error_Some; congruence).
    destruct (Z.ltb_spec (dist c (snd item)) (dist c target)) as [Hlt | Hge].
    + exists (List.length seen), (fst item), (snd item). repeat split.
      * rewrite nth_error_app2 by lia. rewrite Nat.sub_diag. now destruct item.
      * intros j e Hj.
        destruct (Nat.lt_ge_cases j (List.length seen)) as [Hin | Hout].
        -- rewrite nth_error_app1 in Hj by exact Hin.
           specialize (Hmin j e Hj). lia.
        -- rewrite nth_error_app2 in Hj by exact Hout.
           destruct (j - List.length seen)%nat as [| n]; simpl in Hj.
           ++ injection Hj as <-. lia.
           ++ destruct n; discriminate.
      * intros j e Hj He. rewrite nth_error_app1 in He by exact Hj.
        specialize (Hmin j e He). lia.
    + exists i, name, target. repeat split.
      * rewrite nth_error_app1 by exact Hlen. exact Hi.
      * intros j e Hj.
        destruct (Nat.lt_ge_cases j (List.length seen)) as [Hin | Hout].
        -- rewrite nth_error_app1 in Hj by exact Hin. now apply (Hmin j).
        -- rewrite nth_error_app2 in Hj by exact Hout.
           destruct (j - List.length seen)%nat as [| n]; simpl in Hj.
           ++ injection Hj as <-. exact Hge.
           ++ destruct n; discriminate.
      * intros j e Hj He. rewrite nth_error_app1 in He by lia.
        now apply (Hfirst j).
Qed.

Lemma scanned_all (target_colors : dict rgb) :
  scanned c target_colors (fold_left (scan c) target_colors (None, None)).
Proof.
  induction target_colors as [| item seen IH] using rev_ind.
  - left; split; reflexivity.
  - rewrite fold_left_app. simpl. apply scanned_step, IH.
Qed.
End Scan.

(** The name returned for a palette with an entry is the name of the first
    entry among those nearest by the distance the code computes. *)
Lemma get_color_name_first_min (c : rgb) (target_colors : dict rgb) :
  target_colors <> [] ->
  exists i name target,
    nth_error target_colors i = Some (name, target) /\
    get_color_name c target_colors = Some name /\
    (forall j e, nth_error target_colors j = Some e ->
                 dist c target <= dist c (snd e)) /\
    (forall j e, (j < i)%nat -> nth_error target_colors j = Some e ->
                 dist c target < dist c (snd e)).
Proof.
  intros Hne. unfold get_color_name.
  destruct (scanned_all c target_colors)
    as [[E _] | (i & name & target & Hi & -> & Hmin & Hfirst)].
  - contradiction.
  - exists i, name, target. repeat split; assumption.
Qed.

Lemma get_color_name_empty (c : rgb) : get_color_name c [] = None.
Proof. reflexivity. Qed.

Lemma get_color_name_in (c : rgb) (target_colors : dict rgb) :
  target_colors <> [] ->
  exists name, get_color_name c target_colors = Some name /\
               In name (keys target_colors).
Proof.
  intros Hne.
  destruct (get_color_name_first_min c target_colors Hne)
    as (i & name & target & Hi & Hget & _).
  exists name; split; [exact Hget |].
  apply nth_error_In in Hi. change name with (fst (name, target)).
  now apply in_map.
Qed.

(** ** Sums *)

Lemma fold_add_shift (l : list Z) (a : Z) : fold_left Z.add l a = a + sum l.
Proof.
  unfold sum. revert a; induction l as [| x l IH]; intros a; simpl.
  - lia.
  - rewrite (IH (a + x)), (IH x). lia.
Qed.

Lemma sum_cons (x : Z) (l : list Z) : sum (x :: l) = x + sum l.
Proof. unfold sum at 1. simpl. apply fold_add_shift. Qed.


Lemma sum_zeros {A : Type} (l : list A) : sum (map (fun _ => 0) l) = 0.
Proof.
  induction l as [| x l IH]; simpl; [reflexivity |].
  rewrite sum_cons, IH. reflexivity.
Qed.

(** ** The histogram *)

Lemma tally_sum (c : rgb) (h : list (rgb * Z)) :
  sum (map snd (tally c h)) = sum (map snd h) + 1.
Proof.
  induction h as [| [c' n] h IH]; cbn [tally map snd].
  - reflexivity.
  - destruct (rgb_compare c c'); cbn [map snd]; rewrite !sum_cons.
    + lia.
    + lia.
    + rewrite IH. lia.
Qed.

Lemma tally_positive (c : rgb) (h : list (rgb * Z)) :
  Forall (fun item => 0 < snd item) h ->
  Forall (fun item => 0 < snd item) (tally c h).
Proof.
  induction h as [| [c' n] h IH]; simpl; intros H.
  - constructor; [simpl; lia | constructor].
  - inversion H as [| ? ? Hn Hh]; subst. simpl in Hn.
    destruct (rgb_compare c c').
    + constructor; [simpl; lia | exact Hh].
    + constructor; [simpl; lia | exact H].
    + constructor; [exact Hn | apply IH, Hh].
Qed.

Lemma fold_tally_sum (rows : list rgb) (h : list (rgb * Z)) :
  sum (map snd (fold_left (fun h c => tally c h) rows h))
  = sum (map snd h) + Z.of_nat (List.length rows).
Proof.
  revert h; induction rows as [| c rows IH]; intros h; simpl List.length; simpl fold_left.
  - simpl. lia.
  - rewrite IH, tally_sum. lia.
Qed.

(** The counts of the histogram add up to the number of rows. *)
Lemma histogram_sum (rows : list rgb) :
  sum (map snd (histogram rows)) = Z.of_nat (List.length rows).
Proof. unfold histogram. rewrite fold_tally_sum. reflexivity. Qed.

Lemma histogram_positive (rows : list rgb) :
  Forall (fun item => 0 < snd item) (histogram rows).
Proof.
  unfold histogram.
  assert (G : forall h, Forall (fun item => 0 < snd item) h ->
            Forall (fun item => 0 < snd item)
                   (fold_left (fun h c => tally c h) rows h)).
  { induction rows as [| c rows IH]; intros h H; simpl; [exact H |].
    apply IH, tally_positive, H. }
  apply G. constructor.
Qed.

(** ** The histogram is what [numpy.unique] returns *)

Ltac compare_cases :=
  repeat match goal with
         | |- context [?a ?= ?b] => destruct (Z.compare_spec a b)
         | H : context [?a ?= ?b] |- _ => destruct (Z.compare_spec a b)
         end.

Lemma rgb_compare_eq (x y : rgb) : rgb_compare x y = Eq -> x = y.
Proof.
  destruct x as [[r1 g1] b1], y as [[r2 g2] b2].
  unfold rgb_compare, red, green, blue; cbn [fst snd]. intros H.
  compare_cases; try discriminate; congruence.
Qed.

Lemma rgb_compare_refl (x : rgb) : rgb_compare x x = Eq.
Proof.
  unfold rgb_compare. now rewrite !Z.compare_refl.
Qed.

Lemma rgb_compare_antisym (x y : rgb) :
  rgb_compare x y = Gt -> rgb_compare y x = Lt.
Proof.
  destruct x as [[r1 g1] b1], y as [[r2 g2] b2].
  unfold rgb_compare, red, green, blue; cbn [fst snd]. intros H.
  compare_cases; try discriminate; try reflexivity; lia.
Qed.

Lemma rgb_compare_trans (x y z : rgb) :
  rgb_compare x y = Lt -> rgb_compare y z = Lt -> rgb_compare x z = Lt.
Proof.
  destruct x as [[r1 g1] b1], y as [[r2 g2] b2], z as [[r3 g3] b3].
  unfold rgb_compare, red, green, blue; cbn [fst snd]. intros H1 H2.
  compare_cases; try discriminate; try reflexivity; lia.
Qed.

Lemma count_in_cons (c : rgb) (item : rgb * Z) (h : list (rgb * Z)) :
  count_in c (item :: h)
  = (if rgb_eqb c (fst item) then snd item else 0) + count_in c h.
Proof.
  unfold count_in. cbn [filter].
  destruct (rgb_eqb c (fst item)); cbn [map]; [apply sum_cons | lia].
Qed.

Lemma tally_count (c c' : rgb) (h : list (rgb * Z)) :
  count_in c (tally c' h) = count_in c h + (if rgb_eqb c c' then 1 else 0).
Proof.
  induction h as [| [c0 n] h IH]; cbn [tally].
  - rewrite count_in_cons. cbn [fst snd]. unfold count_in, sum; simpl.
    destruct (rgb_eqb c c'); lia.
  - destruct (rgb_compare c' c0) eqn:E.
    + apply rgb_compare_eq in E. subst c0. rewrite !count_in_cons.
      cbn [fst snd]. destruct (rgb_eqb c c'); lia.
    + rewrite !count_in_cons. cbn [fst snd].
      destruct (rgb_eqb c c'), (rgb_eqb c c0); lia.
    + rewrite !count_in_cons, IH. cbn [fst snd].
      destruct (rgb_eqb c c'), (rgb_eqb c c0); lia.
Qed.

(** The count of a colour in the histogram is the number of pixels of
    that colour. *)
Lemma histogram_count (c : rgb) (rows : list rgb) :
  count_in c (histogram rows) = occurrences c rows.
Proof.
  unfold histogram.
  assert (G : forall h, count_in c (fold_left (fun h c => tally c h) rows h)
                        = count_in c h + occurrences c rows).
  { unfold occurrences. induction rows as [| r rows IH]; intros h.
    - simpl. lia.
    - cbn [fold_left filter]. rewrite IH, tally_count.
      destruct (rgb_eqb c r); cbn [List.length]; lia. }
  rewrite G. unfold count_in, sum; simpl. lia.
Qed.

Lemma tally_head (a : rgb * Z) (c : rgb) (h : list (rgb * Z)) :
  HdRel key_lt a h -> rgb_compare (fst a) c = Lt -> HdRel key_lt a (tally c h).
Proof.
  intros Hh Hc. destruct h as [| [c' n] h]; cbn [tally].
  - constructor. exact Hc.
  - inversion Hh as [| ? ? Hk]; subst.
    destruct (rgb_compare c c'); constructor; assumption.
Qed.

Lemma tally_sorted (c : rgb) (h : list (rgb * Z)) :
  Sorted key_lt h -> Sorted key_lt (tally c h).
Proof.
  induction 1 as [| [c' n] h Hs IH Hhd]; cbn [tally].
  - repeat constructor.
  - destruct (rgb_compare c c') eqn:E.
    + constructor; [exact Hs |].
      destruct Hhd as [| b l Hb]; constructor. exact Hb.
    + constructor; [constructor; assumption | constructor; exact E].
    + constructor; [exact IH |].
      apply tally_head; [exact Hhd | now apply rgb_compare_antisym].
Qed.

(** The rows of the histogram are in ascending order. *)
Lemma histogram_sorted (rows : list rgb) : Sorted key_lt (histogram rows).
Proof.
  unfold histogram.
  assert (G : forall h, Sorted key_lt h ->
                        Sorted key_lt (fold_left (fun h c => tally c h) rows h)).
  { induction rows as [| r rows IH]; intros h H; simpl; [exact H |].
    apply IH, tally_sorted, H. }
  apply G. constructor.
Qed.

(** No colour comes up twice in the histogram. *)
Lemma histogram_unique (rows : list rgb) : NoDup (map fst (histogram rows)).
Proof.
  assert (Htrans : Relations_1.Transitive key_lt)
    by (intros a b c; unfold key_lt; apply rgb_compare_trans).
  pose proof (Sorted_StronglySorted Htrans (histogram_sorted rows)) as H.
  induction H as [| a l Hs IH Hall]; simpl; constructor; [| exact IH].
  intros Hin. apply in_map_iff in Hin as (b & Hb & Hin).
  rewrite Forall_forall in Hall. specialize (Hall b Hin).
  unfold key_lt in Hall. rewrite Hb, rgb_compare_refl in Hall. discriminate.
Qed.

(** [zip(unique, counts)] is the histogram. *)
Lemma zip_unique (rows : list rgb) :
  combine (fst (np_unique rows)) (snd (np_unique rows)) = histogram rows.
Proof.
  unfold np_unique. generalize (split_combine (histogram rows)).
  destruct (split (histogram rows)) as [u n]. simpl. auto.
Qed.

Lemma analyze_classify (data : list (list rgb)) (target_colors : dict rgb) :
  analyze_image_colors data target_colors
  = classify (histogram (reshape data)) target_colors.
Proof.
  unfold analyze_image_colors. rewrite <- zip_unique.
  destruct (np_unique (reshape data)) as [u n]. reflexivity.
Qed.

(** A grid of [h] rows of [w] pixels has [h * w] pixels. *)
Lemma reshape_length (data : list (list rgb)) (w : nat) :
  Forall (fun row => List.length row = w) data ->
  List.length (reshape data) = (List.length data * w)%nat.
Proof.
  unfold reshape. induction 1 as [| row data Hrow _ IH]; simpl.
  - reflexivity.
  - rewrite length_app, IH, Hrow. reflexivity.
Qed.

(** ** More on dictionaries: extensionality, sums of values, key suffixes *)

(** Two dictionaries with the same keys in the same order and the same
    value under every key are the same dictionary. *)
Lemma dict_ext {V : Type} (d d' : dict V) :
  wf d -> keys d = keys d' -> (forall k, get k d = get k d') -> d = d'.
Proof.
  unfold wf. revert d'.
  induction d as [| [k v] d IH]; intros [| [k' v'] d'] Hnd Hk Hg;
    simpl in Hk; try discriminate; [reflexivity |].
  injection Hk as <- Hk. inversion Hnd as [| ? ? Hnotin Hnd']; subst.
  assert (Hv : v = v').
  { specialize (Hg k). simpl in Hg. rewrite String.eqb_refl in Hg. congruence. }
  subst v'. f_equal. apply IH; [exact Hnd' | exact Hk |].
  intros k0. specialize (Hg k0). simpl in Hg.
  destruct (String.eqb k0 k) eqn:E; [| exact Hg].
  apply String.eqb_eq in E. subst k0.
  assert (E1 : get k d = None) by (apply get_none_iff; exact Hnotin).
  assert (E2 : get k d' = None).
  { apply get_none_iff. unfold keys in *. rewrite <- Hk. exact Hnotin. }
  congruence.
Qed.

Lemma in_keys_get {V : Type} (k : string) (d : dict V) :
  In k (keys d) -> exists v, get k d = Some v.
Proof.
  intros H. destruct (get k d) as [v |] eqn:E.
  - now exists v.
  - apply get_none_iff in E. contradiction.
Qed.

Lemma sum_values_set (k : string) (old v : Z) (d : dict Z) :
  get k d = Some old -> sum (values (set k v d)) = sum (values d) - old + v.
Proof.
  induction d as [| [k' v'] d IH]; cbn [get set]; [discriminate |].
  destruct (String.eqb k k'); unfold values in *; cbn [map snd];
    rewrite !sum_cons.
  - intros [= ->]. lia.
  - intros H. rewrite (IH H). lia.
Qed.

Lemma in_keys_fold_set {V : Type} (items : list (string * V)) (d : dict V)
  (k : string) :
  In k (keys (fold_left (fun d kv => set (fst kv) (snd kv) d) items d))
  <-> In k (keys d) \/ In k (map fst items).
Proof.
  revert d; induction items as [| [k' v'] items IH]; intros d; simpl.
  - tauto.
  - rewrite IH, keys_set_cases.
    destruct (mem (Some k') d) eqn:E.
    + apply mem_in in E. split; [tauto |].
      intros [H | [<- | H]]; tauto.
    + rewrite in_app_iff. simpl. split; [tauto | intros [H | [<- | H]]; tauto].
Qed.

Lemma length_append (s t : string) :
  String.length (s ++ t) = (String.length s + String.length t)%nat.
Proof. induction s as [| a s IH]; simpl; [reflexivity | now rewrite IH]. Qed.

(** A suffix can be taken off again: [s ++ t] determines [s]. *)
Lemma append_suffix_inj (t s1 s2 : string) :
  (s1 ++ t)%string = (s2 ++ t)%string -> s1 = s2.
Proof.
  revert s2; induction s1 as [| a s1 IH]; intros [| b s2] H; simpl in H.
  - reflexivity.
  - apply (f_equal String.length) in H. simpl in H.
    rewrite length_append in H. lia.
  - apply (f_equal String.length) in H. simpl in H.
    rewrite length_append in H. lia.
  - injection H as -> H. f_equal. now apply IH.
Qed.

Lemma nodup_map_inj {A B : Type} (f : A -> B) (l : list A) :
  (forall x y, f x = f y -> x = y) -> NoDup l -> NoDup (map f l).
Proof.
  intros Hinj. induction 1 as [| x l Hx _ IH]; simpl; constructor.
  - intros Hin. apply in_map_iff in Hin as (y & Hy & Hin).
    apply Hinj in Hy. now subst.
  - exact IH.
Qed.

(** ** The counting loop *)

Lemma zero_counts_keys_in (target_colors : dict rgb) (k : string) :
  In k (keys (zero_counts target_colors)) <-> In k (keys target_colors).
Proof.
  unfold zero_counts, of_items. rewrite in_keys_fold_set.
  rewrite map_map, map_id. simpl. tauto.
Qed.

Lemma zero_counts_wf (target_colors : dict rgb) :
  wf target_colors ->
  zero_counts target_colors = map (fun color => (color, 0)) (keys target_colors).
Proof.
  intros H. unfold zero_counts. apply of_items_nodup.
  rewrite map_map, map_id. exact H.
Qed.

Lemma set_zero (k : string) (d : dict Z) :
  Forall (fun kv => snd kv = 0) d -> Forall (fun kv => snd kv = 0) (set k 0 d).
Proof.
  induction 1 as [| [k' v'] d Hv Hd IH]; simpl.
  - constructor; [reflexivity | constructor].
  - destruct (String.eqb k k'); constructor; auto.
Qed.

Lemma zero_counts_zero (target_colors : dict rgb) :
  Forall (fun kv => snd kv = 0) (zero_counts target_colors).
Proof.
  unfold zero_counts, of_items.
  assert (G : forall (ks : list string) (d : dict Z),
             Forall (fun kv => snd kv = 0) d ->
             Forall (fun kv => snd kv = 0)
               (fold_left (fun d kv => set (fst kv) (snd kv) d)
                          (map (fun color => (color, 0)) ks) d)).
  { induction ks as [| k ks IH]; intros d H; simpl; [exact H |].
    apply IH, set_zero, H. }
  apply G. constructor.
Qed.

Lemma zero_counts_sum (target_colors : dict rgb) :
  sum (values (zero_counts target_colors)) = 0.
Proof.
  generalize (zero_counts_zero target_colors).
  induction 1 as [| [k v] d Hv _ IH]; [reflexivity |].
  unfold values in *. cbn [map snd]. simpl in Hv. rewrite sum_cons, IH, Hv.
  reflexivity.
Qed.

Lemma zero_counts_get (target_colors : dict rgb) (k : string) (v : Z) :
  get k (zero_counts target_colors) = Some v -> v = 0.
Proof.
  intros H. apply get_some_in in H.
  generalize (zero_counts_zero target_colors). rewrite Forall_forall.
  intros G. exact (G _ H).
Qed.

Lemma keys_credit (name : option string) (n : Z) (cc : dict Z) :
  keys (credit name n cc) = keys cc.
Proof.
  destruct name as [k |]; simpl; [| reflexivity].
  destruct (get k cc) as [old |] eqn:E; [| reflexivity].
  apply keys_set. destruct (get_none_iff k cc) as [_ H].
  destruct (in_dec string_dec k (keys cc)) as [I | NI]; [exact I |].
  rewrite (H NI) in E. discriminate.
Qed.

Lemma keys_credit_all (p : dict rgb) (hist : list (rgb * Z)) (cc : dict Z) :
  keys (credit_all p hist cc) = keys cc.
Proof.
  unfold credit_all. revert cc; induction hist as [| item hist IH]; intros cc; simpl.
  - reflexivity.
  - rewrite IH. apply keys_credit.
Qed.

(** With an entry in [color_counts] for every name of the palette, an
    iteration raises nothing. *)
Lemma count_color_ok (p : dict rgb) (cc : dict Z) (t : Z) (item : rgb * Z) :
  (forall k, In k (keys p) -> In k (keys cc)) ->
  count_color p (cc, t) item
  = Ok (credit (get_color_name (fst item) p) (snd item) cc, t + snd item).
Proof.
  intros Hincl. destruct item as [color count]. unfold count_color; simpl.
  destruct (get_color_name color p) as [name |] eqn:E; simpl; [| reflexivity].
  destruct (get name p) as [x |] eqn:Ep.
  - assert (I : In name (keys p)) by (apply mem_in; unfold mem; now rewrite Ep).
    destruct (in_keys_get name cc (Hincl name I)) as [old Hold].
    unfold getitem. rewrite Hold. reflexivity.
  - simpl. destruct (get name cc) as [old |] eqn:Ec; [| reflexivity].
    exfalso. destruct p as [| e p]; [discriminate E |].
    destruct (get_color_name_in color (e :: p)) as (n' & Hn' & I); [discriminate |].
    rewrite E in Hn'. injection Hn' as <-.
    apply get_none_iff in Ep. contradiction.
Qed.

Lemma count_loop_ok (p : dict rgb) (hist : list (rgb * Z)) (cc : dict Z) (t : Z) :
  (forall k, In k (keys p) -> In k (keys cc)) ->
  for_each (count_color p) hist (cc, t)
  = Ok (credit_all p hist cc, t + sum (map snd hist)).
Proof.
  unfold credit_all.
  revert cc t; induction hist as [| item hist IH]; intros cc t Hincl.
  - simpl. f_equal. f_equal. unfold sum; simpl. lia.
  - cbn [for_each]. rewrite count_color_ok by exact Hincl. cbn [bind].
    rewrite IH.
    + cbn [fold_left map]. rewrite sum_cons. f_equal. f_equal. lia.
    + intros k Hk. rewrite keys_credit. now apply Hincl.
Qed.

(** Every count goes to one entry: the values of [color_counts] grow by
    the counts of the histogram. *)
Lemma credit_all_sum (p : dict rgb) (hist : list (rgb * Z)) (cc : dict Z) :
  p <> [] ->
  (forall k, In k (keys p) -> In k (keys cc)) ->
  sum (values (credit_all p hist cc)) = sum (values cc) + sum (map snd hist).
Proof.
  intros Hne. unfold credit_all.
  revert cc; induction hist as [| item hist IH]; intros cc Hincl.
  - simpl. unfold sum at 3. simpl. lia.
  - cbn [fold_left map]. rewrite sum_cons, IH.
    + destruct (get_color_name_in (fst item) p Hne) as (name & -> & I).
      destruct (in_keys_get name cc (Hincl name I)) as [old Hold].
      unfold credit. rewrite Hold, (sum_values_set name old) by exact Hold. lia.
    + intros k Hk. rewrite keys_credit. now apply Hincl.
Qed.

Lemma assigned_cons (p : dict rgb) (k : string) (item : rgb * Z)
  (hist : list (rgb * Z)) :
  assigned p k (item :: hist)
  = (if named p k item then snd item else 0) + assigned p k hist.
Proof.
  unfold assigned. cbn [filter].
  destruct (named p k item); cbn [map]; [apply sum_cons | lia].
Qed.

Lemma get_credit (p : dict rgb) (k : string) (item : rgb * Z) (cc : dict Z) :
  get k (credit (get_color_name (fst item) p) (snd item) cc)
  = option_map (fun v => v + (if named p k item then snd item else 0)) (get k cc).
Proof.
  unfold named, credit.
  destruct (get_color_name (fst item) p) as [name |].
  - destruct (String.eqb_spec name k) as [-> | Hne].
    + destruct (get k cc) as [old |] eqn:E.
      * rewrite get_set_same. reflexivity.
      * rewrite E. reflexivity.
    + destruct (get name cc) as [old |].
      * rewrite get_set_other by congruence.
        destruct (get k cc); simpl; [f_equal; lia | reflexivity].
      * destruct (get k cc); simpl; [f_equal; lia | reflexivity].
  - destruct (get k cc); simpl; [f_equal; lia | reflexivity].
Qed.

(** The entry of a name after the loop: what it held before, and the
    counts of the colours [get_color_name] gives to the name. *)
Lemma get_credit_all (p : dict rgb) (k : string) (hist : list (rgb * Z))
  (cc : dict Z) :
  get k (credit_all p hist cc)
  = option_map (fun v => v + assigned p k hist) (get k cc).
Proof.
  unfold credit_all.
  revert cc; induction hist as [| item hist IH]; intros cc.
  - simpl. unfold assigned, sum; simpl.
    destruct (get k cc); simpl; [f_equal; lia | reflexivity].
  - cbn [fold_left]. rewrite IH, get_credit, assigned_cons.
    destruct (get k cc); simpl; [f_equal; lia | reflexivity].
Qed.



(** ** The percentages *)

Lemma percent_loop_ok (t : Z) (items : list (string * Z)) (d : dict string) :
  t <> 0 ->
  for_each (percent_item t) items d
  = Ok (fold_left (fun d kv => set (fst kv) (snd kv) d)
          (map (percent_entry t) items) d).
Proof.
  intros Ht. revert d; induction items as [| item items IH]; intros d.
  - reflexivity.
  - cbn [for_each map fold_left]. unfold percent_item at 1, truediv.
    destruct (Z.eqb_spec t 0) as [E | _]; [contradiction |].
    cbn [bind]. rewrite IH. reflexivity.
Qed.

Lemma percent_loop_zero (items : list (string * Z)) (d : dict string) :
  items <> [] -> for_each (percent_item 0) items d = Raise ZeroDivisionError.
Proof.
  destruct items as [| item items]; [contradiction | reflexivity].
Qed.

Lemma percent_keys (t : Z) (cc : dict Z) :
  map fst (map (percent_entry t) cc)
  = map (fun name => (name ++ "_percent")%string) (keys cc).
Proof. unfold keys. rewrite !map_map. reflexivity. Qed.

(** The comprehension makes one entry from each entry of [color_counts]. *)
Lemma percent_dict (t : Z) (cc : dict Z) :
  wf cc -> of_items (map (percent_entry t) cc) = map (percent_entry t) cc.
Proof.
  intros H. apply of_items_nodup. rewrite percent_keys.
  apply nodup_map_inj; [| exact H].
  intros x y. apply append_suffix_inj.
Qed.

Lemma get_percent (t : Z) (cc : dict Z) (name : string) (c : Z) :
  get name cc = Some c ->
  get (name ++ "_percent")%string (map (percent_entry t) cc)
  = Some (Float64.format_6f (Float64.true_divide c t)).
Proof.
  induction cc as [| [k v] cc IH]; cbn [get map]; [discriminate |].
  unfold percent_entry at 1. cbn [fst snd].
  destruct (String.eqb_spec name k) as [-> | Hne].
  - intros [= ->]. now rewrite String.eqb_refl.
  - intros H. destruct (String.eqb_spec (name ++ "_percent") (k ++ "_percent"))
      as [E | _].
    + apply append_suffix_inj in E. contradiction.
    + now apply IH.
Qed.

(** ** [classify] in closed form *)

Lemma credit_all_wf (p : dict rgb) (hist : list (rgb * Z)) :
  wf (credit_all p hist (zero_counts p)).
Proof.
  unfold wf. rewrite keys_credit_all. apply wf_of_items.
Qed.

(** With a pixel counted, the result is there: the counts of the loop and
    one percentage made from each of them. *)
Lemma classify_ok (hist : list (rgb * Z)) (p : dict rgb) :
  sum (map snd hist) <> 0 ->
  classify hist p
  = Ok (credit_all p hist (zero_counts p),
        map (percent_entry (sum (map snd hist)))
            (credit_all p hist (zero_counts p))).
Proof.
  intros Ht. unfold classify.
  rewrite count_loop_ok by (intros k; apply zero_counts_keys_in).
  cbn [bind]. rewrite Z.add_0_l, percent_loop_ok by exact Ht. cbn [bind].
  change (fold_left _ (map (percent_entry ?t) ?cc) [])
    with (of_items (map (percent_entry t) cc)).
  rewrite percent_dict by apply credit_all_wf. reflexivity.
Qed.

Lemma classify_no_pixel (hist : list (rgb * Z)) (p : dict rgb) :
  sum (map snd hist) = 0 -> p <> [] ->
  classify hist p = Raise ZeroDivisionError.
Proof.
  intros Ht Hne. unfold classify.
  rewrite count_loop_ok by (intros k; apply zero_counts_keys_in).
  cbn [bind]. rewrite Z.add_0_l, Ht, percent_loop_zero; [reflexivity |].
  intros E. apply (f_equal keys) in E. rewrite keys_credit_all in E.
  destruct p as [| [k v] p]; [contradiction |].
  assert (I : In k (keys (zero_counts ((k, v) :: p))))
    by (apply zero_counts_keys_in; now left).
  rewrite E in I. destruct I.
Qed.

Lemma classify_no_palette (hist : list (rgb * Z)) :
  classify hist [] = Ok ([], []).
Proof.
  unfold classify.
  rewrite count_loop_ok by (intros k; apply zero_counts_keys_in).
  cbn [bind].
  assert (E : credit_all [] hist (zero_counts []) = []).
  { generalize (keys_credit_all [] hist (zero_counts [])).
    destruct (credit_all [] hist (zero_counts [])); [reflexivity | discriminate]. }
  rewrite E. reflexivity.
Qed.

(** ** The membership guard *)

(** A name that [get_color_name] returns is a key of the palette, so the
    guard of the counting loop fails for [None] only. *)
Lemma guard_holds (c : rgb) (p : dict rgb) (name : string) :
  get_color_name c p = Some name -> mem (Some name) p = true.
Proof.
  intros E. destruct p as [| e p]; [discriminate E |].
  destruct (get_color_name_in c (e :: p)) as (n & Hn & I); [discriminate |].
  rewrite E in Hn. injection Hn as <-. now apply mem_in.
Qed.

(** ** Floats *)

Lemma round_aux_sign (m e : Z) (l : location) :
  is_negative (binary_round_aux Float64.prec Float64.emax false m e l) = false.
Proof.
  unfold binary_round_aux.
  destruct (shr_fexp Float64.prec Float64.emax m e l) as [mrs' e'].
  destruct (shr_fexp Float64.prec Float64.emax _ e' loc_Exact) as [mrs'' e''].
  destruct (shr_m mrs''); [reflexivity | | reflexivity].
  destruct (Z.leb e'' _); reflexivity.
Qed.

Lemma of_int_sign (z : Z) : 0 <= z -> is_negative (Float64.of_int z) = false.
Proof.
  intros Hz. unfold Float64.of_int, binary_normalize.
  destruct z as [| m | m]; [reflexivity | | lia].
  unfold binary_round.
  destruct (shl_align m 0 _) as [mz ez]. apply round_aux_sign.
Qed.

(** The quotient of two integers that are not negative is not negative. *)
Lemma true_divide_sign (a b : Z) :
  0 <= a -> 0 <= b -> is_negative (Float64.true_divide a b) = false.
Proof.
  intros Ha Hb. unfold Float64.true_divide.
  generalize (of_int_sign a Ha) (of_int_sign b Hb).
  destruct (Float64.of_int a) as [sa | sa | | sa ma ea];
    destruct (Float64.of_int b) as [sb | sb | | sb mb eb];
    simpl; intros Hsa Hsb; subst; try reflexivity.
  destruct (SFdiv_core_binary _ _ _ _ _ _) as [[mz ez] lz].
  apply round_aux_sign.
Qed.

(** ** The store *)

Section StoreFacts.
Import Store.

Lemma nth_error_end (h : heap) (o : obj) :
  nth_error (h ++ [o]) (List.length h) = Some o.
Proof. rewrite nth_error_app2, Nat.sub_diag by lia. reflexivity. Qed.

Lemma update_end (h : heap) (o o' : obj) :
  update (List.length h) o' (h ++ [o]) = h ++ [o'].
Proof. induction h as [| x h IH]; simpl; [reflexivity | now rewrite IH]. Qed.

Lemma nth_error_keep (h t : heap) (l : nat) (o : obj) :
  nth_error h l = Some o -> nth_error (h ++ t) l = Some o.
Proof.
  intros H. rewrite nth_error_app1; [exact H |].
  apply nth_error_Some. congruence.
Qed.

(** The counting loop writes to the new dictionary only, and computes
    what the loop over values computes. *)
Lemma count_loop_at (h : heap) (p : nat) (palette : dict rgb)
  (hist : list (rgb * Z)) (cc : dict Z) (t : Z) :
  nth_error h p = Some (DictRgb palette) ->
  (forall k, In k (keys palette) -> In k (keys cc)) ->
  for_each_at (count_color_at p (List.length h)) hist t (h ++ [DictInt cc])
  = (Ok (t + sum (map snd hist)),
     h ++ [DictInt (credit_all palette hist cc)]).
Proof.
  intros Hp. unfold credit_all.
  revert cc t; induction hist as [| item hist IH]; intros cc t Hincl.
  - simpl. unfold ret, sum; simpl. now rewrite Z.add_0_r.
  - cbn [for_each_at fold_left map]. rewrite sum_cons.
    unfold mbind at 1, count_color_at at 1, mbind at 1, read_rgb, mbind at 1, read.
    rewrite (nth_error_keep h _ p _ Hp). unfold ret at 1.
    destruct (get_color_name (fst item) palette) as [name |] eqn:E.
    + rewrite (guard_holds _ _ _ E).
      assert (I : In name (keys palette))
        by (apply mem_in; exact (guard_holds _ _ _ E)).
      destruct (in_keys_get name cc (Hincl name I)) as [old Hold].
      unfold mbind at 1, mbind at 1, read_int, mbind at 1, read.
      rewrite nth_error_end. unfold ret at 1, mbind at 1, lift, getitem.
      rewrite Hold. unfold write. rewrite update_end. unfold ret at 1.
      rewrite IH.
      * unfold credit. rewrite Hold. f_equal. f_equal. lia.
      * intros k Hk. rewrite keys_set by (apply Hincl, I). now apply Hincl.
    + cbn [mem]. unfold mbind at 1, ret at 1, ret at 1.
      rewrite IH by exact Hincl. cbn [credit]. f_equal. f_equal. lia.
Qed.

(** The comprehension of the percentages fills a new dictionary; when
    the division raises, the dictionary is left as far as it got. *)
Lemma percent_loop_at (h : heap) (t : Z) (items : list (string * Z))
  (d : dict string) :
  exists d',
    for_each_at (percent_item_at (List.length h) t) items tt (h ++ [DictStr d])
    = (match for_each (percent_item t) items d with
       | Ok _ => Ok tt
       | Raise e => Raise e
       end, h ++ [DictStr d'])
    /\ (forall d'', for_each (percent_item t) items d = Ok d'' -> d' = d'').
Proof.
  revert d; induction items as [| item items IH]; intros d.
  - exists d. split; [reflexivity | intros d'' [= <-]; reflexivity].
  - cbn [for_each_at for_each].
    unfold mbind at 1, percent_item_at at 1, mbind at 1, lift,
      percent_item at 1 3.
    destruct (truediv (snd item) t) as [q | e]; cbn [bind].
    + unfold mbind at 1, read_str, mbind at 1, read.
      rewrite nth_error_end. unfold ret at 1, write. rewrite update_end.
      apply IH.
    + exists d. split; [reflexivity | discriminate].
Qed.

(** A call, step by step: two objects are added to the store, the
    dictionary of the counts and the one of the percentages. *)
Lemma analyze_at_run (h : heap) (d p : nat) (data : list (list rgb))
  (palette : dict rgb) :
  nth_error h d = Some (Array data) ->
  nth_error h p = Some (DictRgb palette) ->
  let hist := histogram (reshape data) in
  let cc := credit_all palette hist (zero_counts palette) in
  let pcs := for_each (percent_item (0 + sum (map snd hist))) cc [] in
  exists d',
    analyze_image_colors_at d p h
    = (match pcs with
       | Ok _ => Ok (List.length h, S (List.length h))
       | Raise e => Raise e
       end, h ++ [DictInt cc; DictStr d'])
    /\ (forall d'', pcs = Ok d'' -> d' = d'').
Proof.
  intros Hd Hp hist cc pcs. subst hist.
  unfold analyze_image_colors_at.
  unfold mbind at 1, read_array, mbind at 1, read. rewrite Hd. unfold ret at 1.
  revert cc pcs. rewrite <- zip_unique.
  destruct (np_unique (reshape data)) as [u n]. intros cc pcs.
  cbn [fst snd] in cc, pcs.
  unfold mbind at 1, read_rgb, mbind at 1, read. rewrite Hp. unfold ret at 1.
  unfold mbind at 1, new.
  unfold mbind at 1.
  rewrite (count_loop_at h p palette (combine u n) (zero_counts palette) 0 Hp)
    by (intros k; apply zero_counts_keys_in).
  fold cc.
  unfold mbind at 1, read_int, mbind at 1, read.
  rewrite nth_error_end. unfold ret at 1.
  unfold mbind at 1, new. unfold mbind at 1.
  destruct (percent_loop_at (h ++ [DictInt cc])
              (0 + sum (map snd (combine u n))) cc []) as (d' & Hrun & Hd').
  rewrite Hrun. fold pcs in Hd' |- *. exists d'. split; [| exact Hd'].
  rewrite <- app_assoc. cbn [app].
  destruct pcs as [pc | e]; [| reflexivity].
  unfold ret. rewrite length_app. cbn [List.length].
  now rewrite Nat.add_1_r.
Qed.

(** A call, in full: the outcome is the one of the function over values,
    and the objects of the store it started from are all still there. *)
Lemma analyze_at_spec (h : heap) (d p : nat) (data : list (list rgb))
  (palette : dict rgb) :
  nth_error h d = Some (Array data) ->
  nth_error h p = Some (DictRgb palette) ->
  outcome (analyze_image_colors_at d p h) = analyze_image_colors data palette
  /\ (forall l o, nth_error h l = Some o ->
                  nth_error (snd (analyze_image_colors_at d p h)) l = Some o).
Proof.
  intros Hd Hp.
  destruct (analyze_at_run h d p data palette Hd Hp) as (d' & Hrun & Hd').
  rewrite Hrun. cbn [snd]. split.
  - rewrite analyze_classify. unfold classify.
    rewrite count_loop_ok by (intros k; apply zero_counts_keys_in).
    cbn [bind].
    destruct (for_each (percent_item _) _ []) as [pc | e];
      cbn [bind outcome]; [| reflexivity].
    rewrite (Hd' pc eq_refl).
    change (h ++ [DictInt ?c; DictStr pc]) with (h ++ [DictInt c] ++ [DictStr pc]).
    rewrite app_assoc.
    rewrite nth_error_app1 by (rewrite length_app; simpl; lia).
    rewrite nth_error_end.
    replace (S (List.length h)) with (List.length (h ++ [DictInt
      (credit_all palette (histogram (reshape data)) (zero_counts palette))]))
      by (rewrite length_app; simpl; lia).
    rewrite nth_error_end. reflexivity.
  - intros l o Hl. now apply nth_error_keep.
Qed.
End StoreFacts.

(** ** The image as a grid *)

Lemma grid_total (data : list (list rgb)) (h w : nat) :
  List.length data = h ->
  Forall (fun row => List.length row = w) data ->
  sum (map snd (histogram (reshape data))) = Z.of_nat (h * w).
Proof.
  intros Hh Hw. rewrite histogram_sum, (reshape_length data w Hw), Hh.
  reflexivity.
Qed.

Lemma target_colors_nonempty : target_colors <> [].
Proof. intros E. vm_compute in E. discriminate E. Qed.

Lemma monochrome_rows : Forall (fun row => List.length row = 10%nat) monochrome.
Proof. repeat constructor. Qed.

Lemma two_colors_rows : Forall (fun row => List.length row = 4%nat) two_colors.
Proof. repeat constructor. Qed.

Lemma target_colors_rgb8 : Forall (fun e => rgb8 (snd e)) target_colors.
Proof. vm_compute. repeat constructor; discriminate. Qed.

(** ** The two promotions *)

Lemma for_each_ok {A S : Type} (body : S -> A -> result S) (f : S -> A -> S)
  (items : list A) (s : S) :
  (forall s x, In x items -> body s x = Ok (f s x)) ->
  for_each body items s = Ok (fold_left f items s).
Proof.
  revert s; induction items as [| x items IH]; intros s H; simpl.
  - reflexivity.
  - rewrite (H s x (or_introl eq_refl)). cbn [bind].
    apply IH. intros s' y Hy. apply H. now right.
Qed.

Lemma in_u8_iff (z : Z) : in_u8 z = true <-> u8 z.
Proof. unfold in_u8, u8. rewrite andb_true_iff, !Z.leb_le. tauto. Qed.

Lemma rgb_in_u8_iff (t : rgb) : rgb_in_u8 t = true <-> rgb8 t.
Proof.
  unfold rgb_in_u8, rgb8. rewrite !andb_true_iff, !in_u8_iff. tauto.
Qed.

Lemma palette_in_u8_iff (p : dict rgb) :
  palette_in_u8 p = true <-> Forall (fun e => rgb8 (snd e)) p.
Proof.
  unfold palette_in_u8. rewrite forallb_forall, Forall_forall.
  split; intros H e He; apply rgb_in_u8_iff, H, He.
Qed.

(** The [uint8] computation gives the residue of the exact distance. *)
Lemma dist8_mod (c t : rgb) : dist8 c t = spec_dist c t mod 256.
Proof.
  destruct c as [[a1 a2] a3], t as [[b1 b2] b3].
  unfold dist8, spec_dist, Np8.add8, Np8.sqr8, Np8.sub8, Np8.wrap8,
    red, green, blue; cbn [fst snd].
  rewrite <- !Z.mul_mod by lia.
  rewrite Z.add_0_l, Z.mod_mod by lia.
  replace ((a1 - b1) ^ 2) with ((a1 - b1) * (a1 - b1)) by ring.
  replace ((a2 - b2) ^ 2) with ((a2 - b2) * (a2 - b2)) by ring.
  replace ((a3 - b3) ^ 2) with ((a3 - b3) * (a3 - b3)) by ring.
  set (x1 := (a1 - b1) * (a1 - b1)). set (x2 := (a2 - b2) * (a2 - b2)).
  set (x3 := (a3 - b3) * (a3 - b3)).
  rewrite (Z.add_mod (x1 + x2) x3), (Z.add_mod x1 x2) by lia.
  reflexivity.
Qed.

(** What is compared is the exact distance under the promotion of NumPy
    1.x and its residue modulo 256 under the promotion of NumPy 2. *)
Lemma dist_np_compared (np : promotion) (c t : rgb) :
  rgb8 c -> rgb8 t -> dist_np np c t = Ok (compared np c t).
Proof.
  intros Hc Ht. destruct np; cbn [dist_np compared].
  - now rewrite dist_exact.
  - apply rgb_in_u8_iff in Ht. now rewrite Ht, dist8_mod.
Qed.

Lemma dist_np_weak (c t : rgb) :
  rgb_in_u8 t = true -> dist_np WeakScalar c t = Ok (compared WeakScalar c t).
Proof. intros Ht. cbn [dist_np compared]. now rewrite Ht, dist8_mod. Qed.

Lemma get_color_name_np_legacy (c : rgb) (p : dict rgb) :
  get_color_name_np ValueBased c p = Ok (get_color_name c p).
Proof.
  unfold get_color_name_np, get_color_name.
  rewrite (for_each_ok _ (scan c)); [reflexivity |].
  intros st item _. reflexivity.
Qed.

(** On a palette of 8-bit colours nothing is raised, and the name is the
    one of the scan over the distance that is compared. *)
Lemma get_color_name_np_by (np : promotion) (c : rgb) (p : dict rgb) :
  rgb8 c -> Forall (fun e => rgb8 (snd e)) p ->
  get_color_name_np np c p = Ok (name_by (compared np) c p).
Proof.
  intros Hc Hp. rewrite Forall_forall in Hp.
  unfold get_color_name_np, name_by.
  rewrite (for_each_ok _ (scan_by (compared np) c)); [reflexivity |].
  intros st item Hin. unfold scan_np, scan_by.
  now rewrite (dist_np_compared np c (snd item) Hc (Hp item Hin)).
Qed.

Lemma get_color_name_np_weak (c : rgb) (p : dict rgb) :
  palette_in_u8 p = true ->
  get_color_name_np WeakScalar c p = Ok (name_by (compared WeakScalar) c p).
Proof.
  intros Hp. unfold palette_in_u8 in Hp. rewrite forallb_forall in Hp.
  unfold get_color_name_np, name_by.
  rewrite (for_each_ok _ (scan_by (compared WeakScalar) c)); [reflexivity |].
  intros st item Hin. unfold scan_np, scan_by.
  now rewrite (dist_np_weak c (snd item) (Hp item Hin)).
Qed.

(** One component outside [0, 255] anywhere in the palette, and NumPy 2
    raises for every colour. *)
Lemma get_color_name_np_overflow (c : rgb) (p : dict rgb) :
  palette_in_u8 p = false ->
  get_color_name_np WeakScalar c p = Raise OverflowError.
Proof.
  intros Hp. unfold get_color_name_np.
  assert (G : forall st, for_each (scan_np WeakScalar c) p st
                         = Raise OverflowError).
  { unfold palette_in_u8 in Hp.
    induction p as [| e p IH]; intros st; [discriminate Hp |].
    cbn [forallb] in Hp. cbn [for_each]. unfold scan_np at 1, dist_np.
    destruct (rgb_in_u8 (snd e)); [| reflexivity].
    cbn [bind]. apply IH. exact Hp. }
  now rewrite G.
Qed.

Section ScanBy.
Variable d : rgb -> rgb -> Z.
Variable c : rgb.

Lemma scanned_by_step seen st item :
  scanned_by d c seen st -> scanned_by d c (seen ++ [item]) (scan_by d c st item).
Proof.
  intros [[-> ->] | (i & name & target & Hi & -> & Hmin & Hfirst)]; right.
  - exists 0%nat, (fst item), (snd item). simpl.
    split; [now destruct item |]. split; [reflexivity |]. split.
    + intros [| j] e; simpl; [intros [= <-]; lia |].
      destruct j; discriminate.
    + intros j e Hj; lia.
  - unfold scan_by; simpl.
    assert (Hlen : (i < List.length seen)%nat)
      by (apply nth_error_Some; congruence).
    assert (Hlast : forall j e, nth_error (seen ++ [item]) j = Some e ->
                      (j < List.length seen)%nat /\ nth_error seen j = Some e
                      \/ e = item).
    { intros j e Hj.
      destruct (Nat.lt_ge_cases j (List.length seen)) as [Hin | Hout].
      - left. rewrite nth_error_app1 in Hj by exact Hin. now split.
      - right. rewrite nth_error_app2 in Hj by exact Hout.
        destruct (j - List.length seen)%nat as [| n]; simpl in Hj;
          [now injection Hj | destruct n; discriminate]. }
    destruct (Z.ltb_spec (d c (snd item)) (d c target)) as [Hlt | Hge].
    + exists (List.length seen), (fst item), (snd item). repeat split.
      * rewrite nth_error_app2 by lia. rewrite Nat.sub_diag. now destruct item.
      * intros j e Hj. destruct (Hlast j e Hj) as [[_ He] | ->]; [| lia].
        specialize (Hmin j e He). lia.
      * intros j e Hj He. rewrite nth_error_app1 in He by exact Hj.
        specialize (Hmin j e He). lia.
    + exists i, name, target. repeat split.
      * rewrite nth_error_app1 by exact Hlen. exact Hi.
      * intros j e Hj. destruct (Hlast j e Hj) as [[_ He] | ->];
          [now apply (Hmin j) | exact Hge].
      * intros j e Hj He. rewrite nth_error_app1 in He by lia.
        now apply (Hfirst j).
Qed.

Lemma scanned_by_all (p : dict rgb) :
  scanned_by d c p (fold_left (scan_by d c) p (None, None)).
Proof.
  induction p as [| item seen IH] using rev_ind.
  - left; split; reflexivity.
  - rewrite fold_left_app. simpl. apply scanned_by_step, IH.
Qed.

(** The scan over any distance gives the first entry at the least value. *)
Lemma name_by_first_min (p : dict rgb) :
  p <> [] ->
  exists i name target,
    nth_error p i = Some (name, target) /\
    name_by d c p = Some name /\
    (forall j e, nth_error p j = Some e -> d c target <= d c (snd e)) /\
    (forall j e, (j < i)%nat -> nth_error p j = Some e ->
                 d c target < d c (snd e)).
Proof.
  intros Hne. unfold name_by.
  destruct (scanned_by_all p)
    as [[E _] | (i & name & target & Hi & -> & Hmin & Hfirst)].
  - contradiction.
  - exists i, name, target. repeat split; assumption.
Qed.

(** The entry that is first at the least value is the one chosen. *)
Lemma name_by_is_first_min (p : dict rgb) (i : nat) (name : string)
  (target : rgb) :
  nth_error p i = Some (name, target) ->
  (forall j e, nth_error p j = Some e -> d c target <= d c (snd e)) ->
  (forall j e, (j < i)%nat -> nth_error p j = Some e ->
               d c target < d c (snd e)) ->
  name_by d c p = Some name.
Proof.
  intros Hi Hmin Hfirst.
  assert (Hne : p <> []) by (intros ->; destruct i; discriminate).
  destruct (name_by_first_min p Hne)
    as (i0 & n0 & t0 & Hi0 & Hget & Hmin0 & Hfirst0).
  rewrite Hget. f_equal.
  destruct (Nat.lt_trichotomy i0 i) as [Hlt | [-> | Hgt]].
  - specialize (Hfirst i0 _ Hlt Hi0). specialize (Hmin0 i _ Hi).
    cbn [snd] in *. lia.
  - rewrite Hi in Hi0. now injection Hi0.
  - specialize (Hfirst0 i _ Hgt Hi). specialize (Hmin i0 _ Hi0).
    cbn [snd] in *. lia.
Qed.

Lemma name_by_in (p : dict rgb) :
  p <> [] -> exists name, name_by d c p = Some name /\ In name (keys p).
Proof.
  intros Hne.
  destruct (name_by_first_min p Hne) as (i & name & target & Hi & Hget & _).
  exists name; split; [exact Hget |].
  apply nth_error_In in Hi. change name with (fst (name, target)).
  now apply in_map.
Qed.

Lemma name_by_key (p : dict rgb) (name : string) :
  name_by d c p = Some name -> In name (keys p).
Proof.
  intros E. destruct p as [| e p]; [discriminate E |].
  destruct (name_by_in (e :: p)) as (n & Hn & I); [discriminate |].
  rewrite E in Hn. now injection Hn as <-.
Qed.
End ScanBy.

(** ** The analysis under either promotion *)

Lemma keys_credit_with (f : rgb -> option string) (hist : list (rgb * Z))
  (cc : dict Z) :
  keys (credit_with f hist cc) = keys cc.
Proof.
  unfold credit_with. revert cc; induction hist as [| item hist IH];
    intros cc; simpl; [reflexivity |].
  rewrite IH. apply keys_credit.
Qed.

Lemma count_loop_np (np : promotion) (p : dict rgb) (f : rgb -> option string)
  (hist : list (rgb * Z)) (cc : dict Z) (t : Z) :
  (forall c, get_color_name_np np c p = Ok (f c)) ->
  (forall c name, f c = Some name -> In name (keys p)) ->
  (forall k, In k (keys p) -> In k (keys cc)) ->
  for_each (count_color_np np p) hist (cc, t)
  = Ok (credit_with f hist cc, t + sum (map snd hist)).
Proof.
  intros Hf Hkey. unfold credit_with.
  revert cc t; induction hist as [| [color count] hist IH]; intros cc t Hincl.
  - simpl. f_equal. f_equal. unfold sum; simpl. lia.
  - cbn [for_each]. unfold count_color_np at 1. rewrite Hf. cbn [bind].
    assert (Hstep :
      (if mem (f color) p
       then match f color with
            | Some name => old <- getitem name cc ;; Ok (set name (old + count) cc)
            | None => Ok cc
            end
       else Ok cc) = Ok (credit (f color) count cc)).
    { destruct (f color) as [name |] eqn:E; [| reflexivity].
      pose proof (Hkey color name E) as I.
      destruct (in_keys_get name cc (Hincl name I)) as [old Hold].
      apply mem_in in I. rewrite I. unfold getitem, credit.
      now rewrite Hold. }
    rewrite Hstep. cbn [bind]. rewrite IH.
    + cbn [fold_left map fst snd]. rewrite sum_cons. f_equal. f_equal. lia.
    + intros k Hk. rewrite keys_credit. now apply Hincl.
Qed.

Lemma credit_with_sum (p : dict rgb) (f : rgb -> option string)
  (hist : list (rgb * Z)) (cc : dict Z) :
  (forall c, exists name, f c = Some name /\ In name (keys p)) ->
  (forall k, In k (keys p) -> In k (keys cc)) ->
  sum (values (credit_with f hist cc)) = sum (values cc) + sum (map snd hist).
Proof.
  intros Hf. unfold credit_with.
  revert cc; induction hist as [| item hist IH]; intros cc Hincl.
  - simpl. unfold sum at 3. simpl. lia.
  - cbn [fold_left map]. rewrite sum_cons, IH.
    + destruct (Hf (fst item)) as (name & -> & I).
      destruct (in_keys_get name cc (Hincl name I)) as [old Hold].
      unfold credit. rewrite Hold, (sum_values_set name old) by exact Hold. lia.
    + intros k Hk. rewrite keys_credit. now apply Hincl.
Qed.

(** Under the promotion of NumPy 1.x, and under the one of NumPy 2 on a
    palette of 8-bit colours, [get_color_name] raises nothing and returns
    keys of the palette, a key whenever the palette has an entry. *)
Lemma namer_total (np : promotion) (p : dict rgb) :
  (np = WeakScalar -> palette_in_u8 p = true) ->
  exists f,
    (forall c, get_color_name_np np c p = Ok (f c))
    /\ (forall c name, f c = Some name -> In name (keys p))
    /\ (p <> [] -> forall c, exists name, f c = Some name /\ In name (keys p)).
Proof.
  intros Hp. destruct np.
  - exists (fun c => get_color_name c p). split; [| split].
    + intros c. apply get_color_name_np_legacy.
    + intros c name E. apply mem_in. now apply guard_holds with (c := c).
    + intros Hne c. now apply get_color_name_in.
  - exists (fun c => name_by (compared WeakScalar) c p). split; [| split].
    + intros c. now apply get_color_name_np_weak, Hp.
    + intros c name. apply name_by_key.
    + intros Hne c. now apply name_by_in.
Qed.

Lemma classify_np_closed (np : promotion) (p : dict rgb)
  (f : rgb -> option string) (hist : list (rgb * Z)) :
  (forall c, get_color_name_np np c p = Ok (f c)) ->
  (forall c name, f c = Some name -> In name (keys p)) ->
  classify_np np hist p
  = (pcs <- for_each (percent_item (sum (map snd hist)))
              (credit_with f hist (zero_counts p)) [] ;;
     Ok (credit_with f hist (zero_counts p), pcs)).
Proof.
  intros Hf Hkey. unfold classify_np.
  rewrite (count_loop_np np p f) by
    (assumption || intros k; apply zero_counts_keys_in).
  cbn [bind]. now rewrite Z.add_0_l.
Qed.

Lemma classify_np_legacy (hist : list (rgb * Z)) (p : dict rgb) :
  classify_np ValueBased hist p = classify hist p.
Proof.
  rewrite (classify_np_closed ValueBased p (fun c => get_color_name c p)).
  - unfold classify.
    rewrite count_loop_ok by (intros k; apply zero_counts_keys_in).
    cbn [bind]. now rewrite Z.add_0_l.
  - intros c. apply get_color_name_np_legacy.
  - intros c name E. apply mem_in. now apply guard_holds with (c := c).
Qed.

Lemma analyze_np_legacy (data : list (list rgb)) (p : dict rgb) :
  analyze_image_colors_np ValueBased data p = analyze_image_colors data p.
Proof.
  unfold analyze_image_colors_np, analyze_image_colors.
  destruct (np_unique (reshape data)) as [u n]. apply classify_np_legacy.
Qed.

Lemma analyze_np_classify (np : promotion) (data : list (list rgb))
  (p : dict rgb) :
  analyze_image_colors_np np data p
  = classify_np np (histogram (reshape data)) p.
Proof.
  unfold analyze_image_colors_np. rewrite <- zip_unique.
  destruct (np_unique (reshape data)) as [u n]. reflexivity.
Qed.

Lemma credit_with_empty (f : rgb -> option string) (hist : list (rgb * Z))
  (p : dict rgb) :
  credit_with f hist (zero_counts p) = [] <-> p = [].
Proof.
  split.
  - intros E. apply (f_equal keys) in E. rewrite keys_credit_with in E.
    destruct p as [| [k v] p]; [reflexivity |].
    assert (I : In k (keys (zero_counts ((k, v) :: p))))
      by (apply zero_counts_keys_in; now left).
    rewrite E in I. destruct I.
  - intros ->. generalize (keys_credit_with f hist (zero_counts [])).
    destruct (credit_with f hist (zero_counts [])); [reflexivity | discriminate].
Qed.

(** Where [get_color_name] raises nothing, the analysis raises for the
    images without a pixel under a palette with an entry only. *)
Lemma classify_np_raise (np : promotion) (p : dict rgb)
  (hist : list (rgb * Z)) (e : exn) :
  (np = WeakScalar -> palette_in_u8 p = true) ->
  classify_np np hist p = Raise e
  <-> e = ZeroDivisionError /\ sum (map snd hist) = 0 /\ p <> [].
Proof.
  intros Hp. destruct (namer_total np p Hp) as (f & Hf & Hkey & _).
  rewrite (classify_np_closed np p f hist Hf Hkey).
  destruct (Z.eq_dec (sum (map snd hist)) 0) as [Hz | Hnz].
  - rewrite Hz. destruct p as [| entry p].
    + assert (E : credit_with f hist (zero_counts []) = [])
        by now apply credit_with_empty.
      rewrite E. cbn. split; [discriminate | intros (_ & _ & H); now contradiction H].
    + rewrite percent_loop_zero.
      * cbn [bind]. split; [intros [= <-] | intros (-> & _ & _)];
          repeat split; discriminate.
      * intros E. apply credit_with_empty in E. discriminate E.
  - rewrite percent_loop_ok by exact Hnz. cbn [bind].
    split; [discriminate | intros (_ & H & _); contradiction].
Qed.

Lemma classify_np_overflow (p : dict rgb) (hist : list (rgb * Z)) :
  palette_in_u8 p = false -> hist <> [] ->
  classify_np WeakScalar hist p = Raise OverflowError.
Proof.
  intros Hp Hne. destruct hist as [| [color count] hist]; [contradiction |].
  unfold classify_np. cbn [for_each]. unfold count_color_np at 1.
  now rewrite get_color_name_np_overflow.
Qed.

Lemma classify_np_nil (np : promotion) (p : dict rgb) :
  classify_np np [] p = classify [] p.
Proof. reflexivity. Qed.

Lemma histogram_nil_iff (rows : list rgb) : histogram rows = [] <-> rows = [].
Proof.
  split; [| intros ->; reflexivity].
  intros E. pose proof (histogram_sum rows) as H. rewrite E in H.
  destruct rows; [reflexivity | discriminate H].
Qed.

(** ** The order of the colours, under either promotion *)





Lemma compared_nonneg (np : promotion) (c t : rgb) : 0 <= compared np c t.
Proof.
  destruct np; cbn [compared].
  - unfold spec_dist.
    pose proof (Z.pow_even_nonneg (red c - red t) 2) as H1.
    pose proof (Z.pow_even_nonneg (green c - green t) 2) as H2.
    pose proof (Z.pow_even_nonneg (blue c - blue t) 2) as H3.
    assert (E : Z.Even 2) by (exists 1; reflexivity).
    specialize (H1 E). specialize (H2 E). specialize (H3 E). lia.
  - apply Z.mod_pos_bound. lia.
Qed.

(** ** The two images of the specification's examples *)

Example target_colors_value :
  target_colors
  = [("hotpink", (255, 105, 180)); ("darkcyan", (0, 139, 139));
     ("lightgray", (211, 211, 211)); ("blue", (0, 93, 186));
     ("white", (255, 255, 255))]%string.
Proof. reflexivity. Qed.

Example monochrome_result :
  analyze_image_colors monochrome target_colors
  = Ok ([("hotpink", 0); ("darkcyan", 0); ("lightgray", 0); ("blue", 0);
         ("white", 100)]%string,
        [("hotpink_percent", "0.000000"); ("darkcyan_percent", "0.000000");
         ("lightgray_percent", "0.000000"); ("blue_percent", "0.000000");
         ("white_percent", "1.000000")]%string).
Proof. vm_compute. reflexivity. Qed.

Example two_colors_result :
  analyze_image_colors two_colors target_colors
  = Ok ([("hotpink", 12); ("darkcyan", 4); ("lightgray", 0); ("blue", 0);
         ("white", 0)]%string,
        [("hotpink_percent", "0.750000"); ("darkcyan_percent", "0.250000");
         ("lightgray_percent", "0.000000"); ("blue_percent", "0.000000");
         ("white_percent", "0.000000")]%string).
Proof. vm_compute. reflexivity. Qed.

(** * The claims *)

(** C1: for a palette with an entry and a grid of [h] rows of [w] pixels,
    [h] and [w] positive, [analyze_image_colors] returns, and the values of
    the counts it returns add up to [h * w]: every pixel is counted under
    one name of the palette and none is left out. *)
Theorem counts_sum_to_pixel_count (data : list (list rgb))
  (target_colors : dict rgb) (h w : nat) :
  target_colors <> [] ->
  List.length data = h ->
  Forall (fun row => List.length row = w) data ->
  (0 < h)%nat -> (0 < w)%nat ->
  exists counts percentages,
    analyze_image_colors data target_colors = Ok (counts, percentages)
    /\ sum (values counts) = Z.of_nat (h * w).
Proof.
  intros Hne Hh Hw Hhpos Hwpos.
  pose proof (grid_total data h w Hh Hw) as Htot.
  rewrite analyze_classify, classify_ok by (rewrite Htot; nia).
  eexists; eexists; split; [reflexivity |].
  rewrite credit_all_sum, zero_counts_sum, Htot; [lia | exact Hne |].
  intros k; apply zero_counts_keys_in.
Qed.

Lemma counts_sum_to_pixel_count_witness :
  exists counts percentages,
    analyze_image_colors two_colors target_colors = Ok (counts, percentages)
    /\ sum (values counts) = Z.of_nat (4 * 4).
Proof.
  apply (counts_sum_to_pixel_count two_colors target_colors 4 4).
  - exact target_colors_nonempty.
  - reflexivity.
  - exact two_colors_rows.
  - lia.
  - lia.
Defined.

(** Under the promotion of NumPy 1.x: for an 8-bit colour and a palette of
    8-bit colours with an entry, the distance computed is the exact squared
    Euclidean distance over the integers, and [get_color_name] returns the
    name of an entry at the least distance; every entry before it in the
    palette is strictly farther, so among the nearest entries the first
    one is chosen. *)
Lemma nearest_first_value_based (c : rgb) (target_colors : dict rgb) :
  rgb8 c ->
  Forall (fun e => rgb8 (snd e)) target_colors ->
  target_colors <> [] ->
  (forall e, In e target_colors -> dist c (snd e) = spec_dist c (snd e))
  /\ exists i name target,
       nth_error target_colors i = Some (name, target)
       /\ get_color_name_np ValueBased c target_colors = Ok (Some name)
       /\ (forall j e, nth_error target_colors j = Some e ->
                       spec_dist c target <= spec_dist c (snd e))
       /\ (forall j e, (j < i)%nat -> nth_error target_colors j = Some e ->
                       spec_dist c target < spec_dist c (snd e)).
Proof.
  intros Hc Hp Hne. rewrite Forall_forall in Hp.
  assert (Hex : forall e, In e target_colors -> dist c (snd e) = spec_dist c (snd e))
    by (intros e He; apply dist_exact; [exact Hc | apply Hp, He]).
  split; [exact Hex |].
  destruct (get_color_name_first_min c target_colors Hne)
    as (i & name & target & Hi & Hget & Hmin & Hfirst).
  exists i, name, target.
  pose proof (Hex _ (nth_error_In _ _ Hi)) as Et. simpl in Et.
  rewrite get_color_name_np_legacy, Hget.
  repeat split; try assumption.
  - intros j e Hj. rewrite <- Et, <- (Hex e (nth_error_In _ _ Hj)).
    now apply (Hmin j).
  - intros j e Hlt Hj. rewrite <- Et, <- (Hex e (nth_error_In _ _ Hj)).
    now apply (Hfirst j).
Qed.

(** C2: under the promotion of NumPy 2 the code does not do what the claim
    says.  For the colour [(1, 1, 1)] and the palette of the script, line
    50 computes the distances 109, 201, 204, 194 and 12, the residues
    modulo 256 of the exact squared distances 107373, 38089, 132300, 42690
    and 193548, and [get_color_name] returns [white], the entry farthest
    from the colour; the entry at the least exact distance is [darkcyan],
    which is what the code returns under the promotion of NumPy 1.x. *)
Theorem get_color_name_wraps_in_uint8 :
  map (fun e => dist_np WeakScalar (1, 1, 1) (snd e)) target_colors
  = [Ok 109; Ok 201; Ok 204; Ok 194; Ok 12]
  /\ map (fun e => spec_dist (1, 1, 1) (snd e)) target_colors
     = [107373; 38089; 132300; 42690; 193548]
  /\ get_color_name_np WeakScalar (1, 1, 1) target_colors
     = Ok (Some "white"%string)
  /\ get_color_name_np ValueBased (1, 1, 1) target_colors
     = Ok (Some "darkcyan"%string).
Proof. repeat split; vm_compute; reflexivity. Qed.

(** C10: for a palette with an entry, [get_color_name] returns a name (not
    its initial [None]) and the name is a key of the palette, so the
    membership test of the counting loop holds; the loop raises nothing and
    the counts it leaves add up to the counts of the histogram it went
    through, so no count is dropped. *)
Theorem get_color_name_is_key (target_colors : dict rgb) :
  target_colors <> [] ->
  (forall c, exists name,
      get_color_name c target_colors = Some name
      /\ In name (keys target_colors)
      /\ mem (get_color_name c target_colors) target_colors = true)
  /\ (forall hist, exists counts,
      for_each (count_color target_colors) hist (zero_counts target_colors, 0)
      = Ok (counts, sum (map snd hist))
      /\ sum (values counts) = sum (map snd hist)).
Proof.
  intros Hne. split.
  - intros c.
    destruct (get_color_name_in c target_colors Hne) as (name & Hget & I).
    exists name. repeat split; [exact Hget | exact I |].
    rewrite Hget. now apply guard_holds with (c := c).
  - intros hist. eexists. split.
    + rewrite count_loop_ok by (intros k; apply zero_counts_keys_in).
      rewrite Z.add_0_l. reflexivity.
    + rewrite credit_all_sum, zero_counts_sum; [lia | exact Hne |].
      intros k; apply zero_counts_keys_in.
Qed.

Lemma get_color_name_is_key_witness :
  (forall c, exists name,
      get_color_name c target_colors = Some name
      /\ In name (keys target_colors)
      /\ mem (get_color_name c target_colors) target_colors = true)
  /\ (forall hist, exists counts,
      for_each (count_color target_colors) hist (zero_counts target_colors, 0)
      = Ok (counts, sum (map snd hist))
      /\ sum (values counts) = sum (map snd hist)).
Proof.
  apply (get_color_name_is_key target_colors).
  exact target_colors_nonempty.
Defined.

(** ** Bounds on the counts *)

Lemma assigned_bounds (p : dict rgb) (k : string) (hist : list (rgb * Z)) :
  Forall (fun item => 0 < snd item) hist ->
  0 <= assigned p k hist <= sum (map snd hist).
Proof.
  induction 1 as [| item hist Hpos _ IH].
  - unfold assigned, sum; simpl. lia.
  - rewrite assigned_cons. cbn [map]. rewrite sum_cons.
    destruct (named p k item); lia.
Qed.

(** An entry of the counts holds the pixels assigned to its name, between
    none and all of them. *)
Lemma counts_entry (p : dict rgb) (hist : list (rgb * Z)) (k : string) (c : Z) :
  get k (credit_all p hist (zero_counts p)) = Some c ->
  c = assigned p k hist.
Proof.
  rewrite get_credit_all.
  destruct (get k (zero_counts p)) as [v |] eqn:E; [| discriminate].
  apply zero_counts_get in E. subst v. simpl. intros [= <-]. lia.
Qed.

Lemma counts_in_entry (p : dict rgb) (hist : list (rgb * Z)) (k : string) (c : Z) :
  In (k, c) (credit_all p hist (zero_counts p)) -> c = assigned p k hist.
Proof.
  intros H. apply counts_entry, in_get; [apply credit_all_wf | exact H].
Qed.

Lemma counts_keys (p : dict rgb) (hist : list (rgb * Z)) :
  wf p -> keys (credit_all p hist (zero_counts p)) = keys p.
Proof.
  intros H. rewrite keys_credit_all, zero_counts_wf by exact H.
  unfold keys. rewrite map_map. simpl. apply map_id.
Qed.

(** C3, as the code has it: for a grid of [h] rows of [w] pixels, [h] and
    [w] positive, the second dictionary returned has, for every name of
    the palette, under the key [name + '_percent'] the string that
    ["{:.6f}"] makes of the float [counts[name] / (h * w)]: the key is not
    the name and the value is not a number. *)
Theorem percentages_are_formatted_ratios (data : list (list rgb))
  (target_colors : dict rgb) (h w : nat) :
  List.length data = h ->
  Forall (fun row => List.length row = w) data ->
  (0 < h)%nat -> (0 < w)%nat ->
  exists counts percentages,
    analyze_image_colors data target_colors = Ok (counts, percentages)
    /\ forall name, In name (keys target_colors) ->
         exists c,
           get name counts = Some c
           /\ get (name ++ "_percent")%string percentages
              = Some (Float64.format_6f (Float64.true_divide c (Z.of_nat (h * w)))).
Proof.
  intros Hh Hw Hhpos Hwpos.
  pose proof (grid_total data h w Hh Hw) as Htot.
  rewrite analyze_classify, classify_ok by (rewrite Htot; nia).
  eexists; eexists; split; [reflexivity |].
  intros name Hname.
  destruct (in_keys_get name (credit_all target_colors (histogram (reshape data))
                                (zero_counts target_colors))) as [c Hc].
  { rewrite keys_credit_all. now apply zero_counts_keys_in. }
  exists c. split; [exact Hc |].
  rewrite Htot. now apply get_percent.
Qed.

Lemma percentages_are_formatted_ratios_witness :
  exists counts percentages,
    analyze_image_colors two_colors target_colors = Ok (counts, percentages)
    /\ forall name, In name (keys target_colors) ->
         exists c,
           get name counts = Some c
           /\ get (name ++ "_percent")%string percentages
              = Some (Float64.format_6f (Float64.true_divide c (Z.of_nat (4 * 4)))).
Proof.
  apply (percentages_are_formatted_ratios two_colors target_colors 4 4).
  - reflexivity.
  - exact two_colors_rows.
  - lia.
  - lia.
Defined.

(** C3, as stated, fails on the white image: the percentages have no entry
    under the name [white]; the entry is under [white_percent] and it is
    the string ["1.000000"]. *)
Lemma percentages_not_keyed_by_name :
  exists counts percentages,
    analyze_image_colors monochrome target_colors = Ok (counts, percentages)
    /\ get "white"%string counts = Some 100
    /\ get "white"%string percentages = None
    /\ get "white_percent"%string percentages = Some "1.000000"%string.
Proof.
  eexists; eexists. split; [vm_compute; reflexivity |].
  repeat split; reflexivity.
Qed.

(** C4, as the code has it: with a palette without entries the function
    raises nothing, whatever the grid: it returns two empty dictionaries. *)
Theorem empty_palette_returns_empty (data : list (list rgb)) :
  analyze_image_colors data [] = Ok ([], []).
Proof. rewrite analyze_classify. apply classify_no_palette. Qed.

(** C4, as stated, fails on an image of one pixel: the call returns and
    the result is not an [EmptyPalette] error. *)
Lemma empty_palette_no_error :
  analyze_image_colors [[(1, 2, 3)]] [] = Ok ([], [])
  /\ analyze_image_colors [[(1, 2, 3)]] [] <> Raise EmptyPalette.
Proof. split; [reflexivity | discriminate]. Qed.

(** C5, as the code has it: for a palette with an entry and a grid without
    pixels the function returns nothing and raises [ZeroDivisionError],
    from the division by [total_pixels] when the percentages are made. *)
Theorem empty_image_zero_division (data : list (list rgb))
  (target_colors : dict rgb) :
  target_colors <> [] ->
  reshape data = [] ->
  analyze_image_colors data target_colors = Raise ZeroDivisionError.
Proof.
  intros Hne Hdata. rewrite analyze_classify, Hdata.
  apply classify_no_pixel; [reflexivity | exact Hne].
Qed.

Lemma empty_image_zero_division_witness :
  analyze_image_colors [[]; []] target_colors = Raise ZeroDivisionError.
Proof.
  apply (empty_image_zero_division [[]; []] target_colors).
  - exact target_colors_nonempty.
  - reflexivity.
Defined.

(** C5, as stated, fails on the image without rows: the error raised is
    not [EmptyImage]. *)
Lemma empty_image_not_empty_image_error :
  analyze_image_colors [] target_colors = Raise ZeroDivisionError
  /\ analyze_image_colors [] target_colors <> Raise EmptyImage.
Proof. split; [reflexivity | vm_compute; discriminate]. Qed.

(** C6, as the code has it: for a palette (a dictionary, so without a
    name twice) and a grid of [h] rows of [w] pixels, [h] and [w] positive,
    the keys of the counts are the names of the palette in their order,
    the keys of the percentages are these names with [_percent] added, in
    the same order, every count lies between 0 and [h * w], and every
    percentage is the six-decimal string of the quotient of such a count
    by [h * w], a float that is not negative. *)
Theorem result_keys_and_signs (data : list (list rgb))
  (target_colors : dict rgb) (h w : nat) :
  wf target_colors ->
  List.length data = h ->
  Forall (fun row => List.length row = w) data ->
  (0 < h)%nat -> (0 < w)%nat ->
  exists counts percentages,
    analyze_image_colors data target_colors = Ok (counts, percentages)
    /\ keys counts = keys target_colors
    /\ keys percentages
       = map (fun name => (name ++ "_percent")%string) (keys target_colors)
    /\ Forall (fun c => 0 <= c <= Z.of_nat (h * w)) (values counts)
    /\ Forall (fun s => exists c,
                 0 <= c <= Z.of_nat (h * w)
                 /\ s = Float64.format_6f (Float64.true_divide c (Z.of_nat (h * w)))
                 /\ is_negative (Float64.true_divide c (Z.of_nat (h * w))) = false)
              (values percentages).
Proof.
  intros Hwf Hh Hw Hhpos Hwpos.
  pose proof (grid_total data h w Hh Hw) as Htot.
  rewrite analyze_classify, classify_ok by (rewrite Htot; nia).
  eexists; eexists; split; [reflexivity |].
  set (hist := histogram (reshape data)) in *.
  set (cc := credit_all target_colors hist (zero_counts target_colors)).
  assert (Hb : forall k c, In (k, c) cc -> 0 <= c <= Z.of_nat (h * w)).
  { intros k c Hin. rewrite (counts_in_entry _ _ _ _ Hin), <- Htot.
    apply assigned_bounds, histogram_positive. }
  split; [apply counts_keys, Hwf |]. split.
  - rewrite <- (counts_keys target_colors hist Hwf). fold cc.
    rewrite Htot. apply percent_keys.
  - split.
    + unfold values. rewrite Forall_map, Forall_forall.
      intros [k c] Hin. exact (Hb k c Hin).
    + unfold values. rewrite Htot, map_map, Forall_map, Forall_forall.
      intros [k c] Hin. exists c. cbn [percent_entry fst snd].
      pose proof (Hb k c Hin) as Hc.
      split; [exact Hc |]. split; [reflexivity |].
      apply true_divide_sign; lia.
Qed.

Lemma result_keys_and_signs_witness :
  exists counts percentages,
    analyze_image_colors two_colors target_colors = Ok (counts, percentages)
    /\ keys counts = keys target_colors
    /\ keys percentages
       = map (fun name => (name ++ "_percent")%string) (keys target_colors)
    /\ Forall (fun c => 0 <= c <= Z.of_nat (4 * 4)) (values counts)
    /\ Forall (fun s => exists c,
                 0 <= c <= Z.of_nat (4 * 4)
                 /\ s = Float64.format_6f (Float64.true_divide c (Z.of_nat (4 * 4)))
                 /\ is_negative (Float64.true_divide c (Z.of_nat (4 * 4))) = false)
              (values percentages).
Proof.
  apply (result_keys_and_signs two_colors target_colors 4 4).
  - unfold wf. vm_compute. repeat constructor; simpl; intuition discriminate.
  - reflexivity.
  - exact two_colors_rows.
  - lia.
  - lia.
Defined.

(** C6, as stated, fails on the white image: the keys of the percentages
    are not the names of the palette. *)
Lemma percentages_keys_differ :
  exists counts percentages,
    analyze_image_colors monochrome target_colors = Ok (counts, percentages)
    /\ keys counts = keys target_colors
    /\ keys percentages <> keys target_colors.
Proof.
  eexists; eexists. split; [vm_compute; reflexivity |].
  split; [reflexivity | discriminate].
Qed.

(** ** Ties *)


(** ** Dictionary displays *)

Lemma get_app {V : Type} (k : string) (d1 d2 : dict V) :
  get k (d1 ++ d2) = match get k d1 with Some v => Some v | None => get k d2 end.
Proof.
  induction d1 as [| [k' v'] d1 IH]; simpl; [reflexivity |].
  destruct (String.eqb k k'); [reflexivity | exact IH].
Qed.

(** Of the pairs stored under one key the last one stays. *)
Lemma get_fold_set {V : Type} (k : string) (items : list (string * V))
  (d : dict V) :
  get k (fold_left (fun d kv => set (fst kv) (snd kv) d) items d)
  = match get k (rev items) with Some v => Some v | None => get k d end.
Proof.
  revert d; induction items as [| [k' v'] items IH]; intros d.
  - reflexivity.
  - cbn [fold_left rev fst snd]. rewrite IH, get_app.
    destruct (get k (rev items)) as [v |]; [reflexivity |].
    cbn [get]. destruct (String.eqb_spec k k') as [-> | Hne].
    + apply get_set_same.
    + now apply get_set_other.
Qed.



(** ** The palette display *)

Lemma hex_digit_range (c : ascii) (d : Z) :
  hex_digit c = Some d -> 0 <= d <= 15.
Proof.
  unfold hex_digit. set (n := Z.of_nat (nat_of_ascii c)).
  destruct (Z.leb_spec 48 n), (Z.leb_spec n 57); cbn [andb];
    try (intros [= <-]; lia);
    destruct (Z.leb_spec 97 n), (Z.leb_spec n 102); cbn [andb];
    try (intros [= <-]; lia);
    destruct (Z.leb_spec 65 n), (Z.leb_spec n 70); cbn [andb];
    try (intros [= <-]; lia); discriminate.
Qed.

Lemma hex_digits_range (s : string) (l : list Z) :
  hex_digits s = Some l -> Forall (fun d => 0 <= d <= 15) l.
Proof.
  revert l; induction s as [| c s IH]; intros l; cbn [hex_digits].
  - intros [= <-]. constructor.
  - destruct (hex_digit c) as [d |] eqn:Ed; [| discriminate].
    destruct (hex_digits s) as [l' |]; [| discriminate].
    intros [= <-]. constructor; [now apply hex_digit_range with c | now apply IH].
Qed.

Opaque Z.mul.

(** [hex_to_rgb] gives components in [0, 255] only. *)
Lemma hex_to_rgb_range (hex : string) (c : rgb) :
  hex_to_rgb hex = Some c -> rgb8 c.
Proof.
  unfold hex_to_rgb. destruct (strip_newline hex) as [| a digits];
    [discriminate |].
  destruct a as [[] [] [] [] [] [] [] []]; try discriminate.
  destruct (hex_digits digits) as [l |] eqn:E; [| discriminate].
  apply hex_digits_range in E.
  destruct l as [| d1 [| d2 [| d3 [| d4 [| d5 [| d6 [| d7 l]]]]]]];
    try discriminate; intros [= <-];
    repeat match goal with
           | H : Forall _ (_ :: _) |- _ => inversion H; clear H; subst
           end;
    unfold rgb8, u8, red, green, blue; cbn [fst snd]; lia.
Qed.

Transparent Z.mul.

Lemma hex_items_forall2 (items : list (string * string))
  (entries : list (string * rgb)) :
  hex_items items = Some entries ->
  Forall2 (fun it en => fst it = fst en /\ hex_to_rgb (snd it) = Some (snd en))
    items entries.
Proof.
  revert entries; induction items as [| [name hex] items IH]; intros entries;
    cbn [hex_items].
  - intros [= <-]. constructor.
  - destruct (hex_to_rgb hex) as [c |] eqn:Ec; [| discriminate].
    destruct (hex_items items) as [l |]; [| discriminate].
    intros [= <-]. constructor; [now split | now apply IH].
Qed.

Lemma hex_items_none (items : list (string * string)) :
  hex_items items = None ->
  exists name hex, In (name, hex) items /\ hex_to_rgb hex = None.
Proof.
  induction items as [| [name hex] items IH]; cbn [hex_items]; [discriminate |].
  destruct (hex_to_rgb hex) as [c |] eqn:Ec.
  - destruct (hex_items items) as [l |]; [discriminate |].
    intros _. destruct (IH eq_refl) as (n & h & Hin & Hh).
    exists n, h. split; [now right | exact Hh].
  - intros _. exists name, hex. split; [now left | exact Ec].
Qed.

Lemma get_forall2 (k : string) (items : list (string * string))
  (entries : list (string * rgb)) :
  Forall2 (fun it en => fst it = fst en /\ hex_to_rgb (snd it) = Some (snd en))
    items entries ->
  get k entries
  = match get k items with
    | Some hex => hex_to_rgb hex
    | None => None
    end.
Proof.
  induction 1 as [| [n h] [n' c] items entries [Hn Hc] _ IH]; cbn [get].
  - reflexivity.
  - cbn [fst snd] in Hn, Hc. subst n'.
    destruct (String.eqb k n); [now rewrite Hc | exact IH].
Qed.

Lemma forall2_rev {A B : Type} (R : A -> B -> Prop) (l1 : list A)
  (l2 : list B) :
  Forall2 R l1 l2 -> Forall2 R (rev l1) (rev l2).
Proof.
  induction 1 as [| x y l1 l2 Hxy _ IH]; simpl; [constructor |].
  apply Forall2_app; [exact IH | constructor; [exact Hxy | constructor]].
Qed.

(** C8, as the code has it: the palette is built by a dictionary display
    whose values are [webcolors.hex_to_rgb] calls.  The display raises
    only when a value is no hexadecimal colour, and then the [ValueError]
    of the library, never [InvalidPalette]; a name given twice is
    accepted and keeps the colour given last.  A palette that is built
    holds no name twice and no component outside [0, 255], which
    [hex_to_rgb] cannot give, and a call of [analyze_image_colors] leaves
    it as it was built. *)
Theorem palette_display_checks_hex_only (items : list (string * string)) :
  (forall e, palette_display items = Raise e ->
     e = ValueError
     /\ exists name hex, In (name, hex) items /\ hex_to_rgb hex = None)
  /\ (forall target_colors, palette_display items = Ok target_colors ->
        wf target_colors
        /\ Forall (fun entry => rgb8 (snd entry)) target_colors
        /\ (forall name,
               get name target_colors
               = match get name (rev items) with
                 | Some hex => hex_to_rgb hex
                 | None => None
                 end)
        /\ (forall h d p data,
               nth_error h d = Some (Store.Array data) ->
               nth_error h p = Some (Store.DictRgb target_colors) ->
               nth_error (snd (Store.analyze_image_colors_at d p h)) p
               = Some (Store.DictRgb target_colors))).
Proof.
  unfold palette_display. destruct (hex_items items) as [entries |] eqn:E.
  - split; [discriminate |]. intros d [= <-].
    pose proof (hex_items_forall2 items entries E) as HF.
    split; [apply wf_of_items |]. split; [| split].
    + apply Forall_forall. intros [k c] Hin.
      assert (G : get k (of_items entries) = Some c)
        by (apply in_get; [apply wf_of_items | exact Hin]).
      unfold of_items in G. rewrite get_fold_set in G.
      rewrite (get_forall2 k (rev items) (rev entries)) in G
        by now apply forall2_rev.
      destruct (get k (rev items)) as [hex |]; [| discriminate G].
      destruct (hex_to_rgb hex) as [c' |] eqn:Eh; [| discriminate G].
      cbn [snd]. injection G as <-. now apply hex_to_rgb_range with hex.
    + intros name. unfold of_items. rewrite get_fold_set.
      rewrite (get_forall2 name (rev items) (rev entries))
        by now apply forall2_rev.
      destruct (get name (rev items)) as [hex |]; [| reflexivity].
      now destruct (hex_to_rgb hex).
    + intros h d p data Hd Hp.
      destruct (analyze_at_spec h d p data (of_items entries) Hd Hp)
        as [_ Hframe].
      now apply Hframe.
  - split; [| discriminate]. intros e [= <-].
    split; [reflexivity | now apply hex_items_none].
Qed.

(** C8, as stated, fails on two pairs of one name: the display builds a
    palette, which holds the name once with the second colour, and raises
    no [InvalidPalette] error. *)
Lemma palette_display_accepts_duplicate :
  palette_display [("pink", "#ff69b4"); ("pink", "#000000")]%string
  = Ok [("pink", (0, 0, 0))]%string
  /\ palette_display [("pink", "#ff69b4"); ("pink", "#000000")]%string
     <> Raise InvalidPalette.
Proof. split; [reflexivity | discriminate]. Qed.

(** C9: a call on a store that holds the pixel array and the palette
    leaves both as they were, and every other object of the store with
    them: the call only adds objects.  Its outcome is the value of
    [analyze_image_colors] at the pixels and the palette, so it depends on
    nothing else. *)
Theorem analyze_leaves_inputs (h : Store.heap) (d p : nat)
  (data : list (list rgb)) (target_colors : dict rgb) :
  nth_error h d = Some (Store.Array data) ->
  nth_error h p = Some (Store.DictRgb target_colors) ->
  let run := Store.analyze_image_colors_at d p h in
  nth_error (snd run) d = Some (Store.Array data)
  /\ nth_error (snd run) p = Some (Store.DictRgb target_colors)
  /\ (forall l o, nth_error h l = Some o -> nth_error (snd run) l = Some o)
  /\ Store.outcome run = analyze_image_colors data target_colors.
Proof.
  intros Hd Hp run. subst run.
  destruct (analyze_at_spec h d p data target_colors Hd Hp) as [Hout Hframe].
  repeat split; auto.
Qed.

Lemma analyze_leaves_inputs_witness :
  let run := Store.analyze_image_colors_at 1 0 example_store in
  nth_error (snd run) 1 = Some (Store.Array two_colors)
  /\ nth_error (snd run) 0 = Some (Store.DictRgb target_colors)
  /\ (forall l o, nth_error example_store l = Some o ->
                  nth_error (snd run) l = Some o)
  /\ Store.outcome run = analyze_image_colors two_colors target_colors.
Proof.
  apply (analyze_leaves_inputs example_store 1 0 two_colors target_colors);
    reflexivity.
Defined.

(** * Further properties of the code *)

(** ** The distance and the scan *)

Lemma spec_dist_bounds (c t : rgb) :
  rgb8 c -> rgb8 t -> 0 <= spec_dist c t <= 195075.
Proof.
  destruct c as [[a1 a2] a3], t as [[b1 b2] b3].
  unfold rgb8, spec_dist, red, green, blue; cbn [fst snd].
  intros (H1 & H2 & H3) (K1 & K2 & K3).
  destruct (sqr_sub_u8 a1 b1 H1 K1) as [_ B1].
  destruct (sqr_sub_u8 a2 b2 H2 K2) as [_ B2].
  destruct (sqr_sub_u8 a3 b3 H3 K3) as [_ B3]. lia.
Qed.

Lemma spec_dist_zero (c t : rgb) : spec_dist c t = 0 -> c = t.
Proof.
  destruct c as [[a1 a2] a3], t as [[b1 b2] b3].
  unfold spec_dist, red, green, blue; cbn [fst snd]. intros H.
  assert (E1 : a1 - b1 = 0) by nia.
  assert (E2 : a2 - b2 = 0) by nia.
  assert (E3 : a3 - b3 = 0) by nia.
  repeat f_equal; lia.
Qed.

Lemma spec_dist_same (c : rgb) : spec_dist c c = 0.
Proof.
  destruct c as [[a1 a2] a3].
  unfold spec_dist, red, green, blue; cbn [fst snd]. ring.
Qed.

(** X1: under either promotion line 50 raises nothing on 8-bit colours
    and computes a number that is the same in both directions: the exact
    squared Euclidean distance, at most 195075, under the promotion of
    NumPy 1.x, where it is 0 for equal colours only, and the residue of
    that distance modulo 256 under the promotion of NumPy 2, where a
    component of the palette colour outside [0, 255] raises
    [OverflowError]. *)
Theorem dist_np_value :
  (forall np c t, rgb8 c -> rgb8 t ->
     dist_np np c t = Ok (compared np c t)
     /\ dist_np np t c = Ok (compared np c t)
     /\ 0 <= compared np c t
        <= match np with ValueBased => 195075 | WeakScalar => 255 end)
  /\ (forall c t, rgb8 c -> rgb8 t -> (compared ValueBased c t = 0 <-> c = t))
  /\ (forall c t, rgb_in_u8 t = false ->
        dist_np WeakScalar c t = Raise OverflowError).
Proof.
  split; [| split].
  - intros np c t Hc Ht.
    assert (Hsym : spec_dist t c = spec_dist c t).
    { destruct c as [[a1 a2] a3], t as [[b1 b2] b3].
      unfold spec_dist, red, green, blue; cbn [fst snd]. ring. }
    split; [now apply dist_np_compared |]. split.
    + rewrite (dist_np_compared np t c Ht Hc).
      destruct np; cbn [compared]; now rewrite Hsym.
    + destruct np; cbn [compared].
      * now apply spec_dist_bounds.
      * pose proof (Z.mod_pos_bound (spec_dist c t) 256). lia.
  - intros c t Hc Ht. cbn [compared].
    split; [apply spec_dist_zero | intros ->; apply spec_dist_same].
  - intros c t Ht. cbn [dist_np]. now rewrite Ht.
Qed.

Lemma dist_np_value_witness :
  (dist_np WeakScalar (1, 1, 1) (0, 139, 139)
   = Ok (compared WeakScalar (1, 1, 1) (0, 139, 139))
   /\ dist_np WeakScalar (0, 139, 139) (1, 1, 1)
      = Ok (compared WeakScalar (1, 1, 1) (0, 139, 139))
   /\ 0 <= compared WeakScalar (1, 1, 1) (0, 139, 139) <= 255)
  /\ (compared ValueBased (1, 1, 1) (0, 139, 139) = 0
      <-> (1, 1, 1) = (0, 139, 139))
  /\ dist_np WeakScalar (1, 1, 1) (300, 0, 0) = Raise OverflowError.
Proof.
  destruct dist_np_value as (Hvalue & Hzero & Hraise).
  assert (Hc : rgb8 (1, 1, 1))
    by (unfold rgb8, u8, red, green, blue; simpl; lia).
  assert (Ht : rgb8 (0, 139, 139))
    by (unfold rgb8, u8, red, green, blue; simpl; lia).
  split; [| split].
  - exact (Hvalue WeakScalar (1, 1, 1) (0, 139, 139) Hc Ht).
  - exact (Hzero (1, 1, 1) (0, 139, 139) Hc Ht).
  - apply (Hraise (1, 1, 1) (300, 0, 0)). reflexivity.
Defined.

(** X2: under either promotion an 8-bit colour gets the name of the first
    entry of the 8-bit palette at the compared distance 0, when there is
    one; under the promotion of NumPy 1.x that is the first entry of the
    very colour. *)
Theorem zero_distance_entry_is_chosen :
  (forall np c target_colors i name t,
     rgb8 c -> Forall (fun e => rgb8 (snd e)) target_colors ->
     nth_error target_colors i = Some (name, t) ->
     compared np c t = 0 ->
     (forall j e, (j < i)%nat -> nth_error target_colors j = Some e ->
                  compared np c (snd e) <> 0) ->
     get_color_name_np np c target_colors = Ok (Some name))
  /\ (forall c target_colors i name,
     rgb8 c -> Forall (fun e => rgb8 (snd e)) target_colors ->
     nth_error target_colors i = Some (name, c) ->
     (forall j e, (j < i)%nat -> nth_error target_colors j = Some e ->
                  snd e <> c) ->
     get_color_name_np ValueBased c target_colors = Ok (Some name)).
Proof.
  assert (G : forall np c p i name t,
     rgb8 c -> Forall (fun e => rgb8 (snd e)) p ->
     nth_error p i = Some (name, t) ->
     compared np c t = 0 ->
     (forall j e, (j < i)%nat -> nth_error p j = Some e ->
                  compared np c (snd e) <> 0) ->
     get_color_name_np np c p = Ok (Some name)).
  { intros np c p i name t Hc Hp Hi Hzero Hbefore.
    rewrite (get_color_name_np_by np c p Hc Hp). f_equal.
    apply (name_by_is_first_min (compared np) c p i name t Hi).
    - intros j e _. rewrite Hzero. apply compared_nonneg.
    - intros j e Hj He. rewrite Hzero.
      pose proof (compared_nonneg np c (snd e)).
      pose proof (Hbefore j e Hj He). lia. }
  split; [exact G |].
  intros c p i name Hc Hp Hi Hbefore.
  apply (G ValueBased c p i name c Hc Hp Hi).
  - cbn [compared]. apply spec_dist_same.
  - intros j e Hj He Hz. cbn [compared] in Hz.
    apply spec_dist_zero in Hz. exact (Hbefore j e Hj He (eq_sym Hz)).
Qed.

Lemma zero_distance_entry_is_chosen_witness :
  get_color_name_np WeakScalar (1, 0, 0) wrap_palette = Ok (Some "far"%string)
  /\ get_color_name_np ValueBased (0, 93, 186) target_colors
     = Ok (Some "blue"%string).
Proof.
  destruct zero_distance_entry_is_chosen as (Hzero & Hsame).
  split.
  - apply (Hzero WeakScalar (1, 0, 0) wrap_palette 2%nat "far"%string
             (17, 0, 0)).
    + unfold rgb8, u8, red, green, blue; simpl; lia.
    + unfold wrap_palette.
      repeat (constructor;
              [unfold rgb8, u8, red, green, blue; simpl; lia |]).
      constructor.
    + reflexivity.
    + reflexivity.
    + intros [| [| j]] e Hj He; [| | lia]; simpl in He;
        injection He as <-; vm_compute; discriminate.
  - apply (Hsame (0, 93, 186) target_colors 3%nat "blue"%string).
    + unfold rgb8, u8, red, green, blue; simpl; lia.
    + exact target_colors_rgb8.
    + reflexivity.
    + intros j e Hj He.
      destruct j as [| [| [| j]]]; [| | | lia];
        vm_compute in He; injection He as <-; discriminate.
Defined.

(** X3: under either promotion, an 8-bit entry added at the end of an
    8-bit palette changes the name of an 8-bit colour only if its compared
    distance is strictly below that of every entry before it: when some
    entry of the palette is at a compared distance not above the one of
    the new entry, the name stays. *)
Theorem later_entry_needs_strictly_smaller (np : promotion) (c : rgb)
  (target_colors : dict rgb) (name : string) (target : rgb) :
  rgb8 c -> Forall (fun e => rgb8 (snd e)) target_colors -> rgb8 target ->
  (exists e, In e target_colors
             /\ compared np c (snd e) <= compared np c target) ->
  get_color_name_np np c (target_colors ++ [(name, target)])
  = get_color_name_np np c target_colors.
Proof.
  intros Hc Hp Ht (e & He & Hle).
  rewrite (get_color_name_np_by np c target_colors Hc Hp).
  rewrite (get_color_name_np_by np c (target_colors ++ [(name, target)]) Hc)
    by (apply Forall_app; split; [exact Hp | constructor; [exact Ht | constructor]]).
  f_equal. unfold name_by. rewrite fold_left_app.
  destruct (scanned_by_all (compared np) c target_colors)
    as [[E _] | (i & n0 & t0 & Hi & Hst & Hmin & _)].
  - subst. destruct He.
  - rewrite Hst. cbn [fold_left]. unfold scan_by. cbn [fst snd lt_min].
    apply In_nth_error in He as [j Hj]. specialize (Hmin j e Hj).
    destruct (Z.ltb_spec (compared np c target) (compared np c t0));
      [lia | reflexivity].
Qed.

Lemma later_entry_needs_strictly_smaller_witness :
  get_color_name_np WeakScalar (1, 0, 0)
    (tie_palette ++ [("third"%string, (1, 0, 1))])
  = get_color_name_np WeakScalar (1, 0, 0) tie_palette.
Proof.
  apply (later_entry_needs_strictly_smaller WeakScalar (1, 0, 0) tie_palette).
  - unfold rgb8, u8, red, green, blue; simpl; lia.
  - unfold tie_palette.
    repeat (constructor;
            [unfold rgb8, u8, red, green, blue; simpl; lia |]).
    constructor.
  - unfold rgb8, u8, red, green, blue; simpl; lia.
  - exists ("first"%string, (0, 0, 0)).
    split; [now left | vm_compute; discriminate].
Defined.

(** ** The counts, pixel by pixel *)

Lemma get_counts (p : dict rgb) (hist : list (rgb * Z)) (k : string) :
  get k (credit_all p hist (zero_counts p))
  = if mem (Some k) p then Some (assigned p k hist) else None.
Proof.
  rewrite get_credit_all.
  destruct (mem (Some k) p) eqn:E.
  - apply mem_in, zero_counts_keys_in, in_keys_get in E as [v Hv].
    rewrite Hv. apply zero_counts_get in Hv. subst v. reflexivity.
  - destruct (get k (zero_counts p)) as [v |] eqn:Hv; [| reflexivity].
    exfalso. assert (I : In k (keys p)).
    { apply zero_counts_keys_in. apply get_some_in in Hv.
      change k with (fst (k, v)). now apply in_map. }
    apply mem_in in I. congruence.
Qed.

Lemma assigned_tally (p : dict rgb) (k : string) (c : rgb) (h : list (rgb * Z)) :
  assigned p k (tally c h)
  = assigned p k h + (if is_named p k c then 1 else 0).
Proof.
  induction h as [| [c' n] h IH]; cbn [tally].
  - rewrite assigned_cons. unfold named, is_named, assigned, sum; simpl.
    destruct (get_color_name c p) as [n0 |]; [destruct (String.eqb n0 k) |]; lia.
  - destruct (rgb_compare c c') eqn:E.
    + apply rgb_compare_eq in E. subst c'. rewrite !assigned_cons.
      unfold named, is_named. cbn [fst snd].
      destruct (get_color_name c p) as [n0 |]; [destruct (String.eqb n0 k) |]; lia.
    + rewrite (assigned_cons p k (c, 1)). unfold named at 1, is_named.
      cbn [fst snd].
      destruct (get_color_name c p) as [n0 |]; [destruct (String.eqb n0 k) |]; lia.
    + rewrite !assigned_cons, IH. lia.
Qed.

(** Adding up the counts of the unique colours of a name is counting the
    pixels of the name. *)
Lemma assigned_histogram (p : dict rgb) (k : string) (rows : list rgb) :
  assigned p k (histogram rows) = pixels_named p k rows.
Proof.
  unfold histogram, pixels_named.
  assert (G : forall h,
             assigned p k (fold_left (fun h c => tally c h) rows h)
             = assigned p k h
               + Z.of_nat (List.length (filter (is_named p k) rows))).
  { induction rows as [| r rows IH]; intros h.
    - simpl. lia.
    - cbn [fold_left filter]. rewrite IH, assigned_tally.
      destruct (is_named p k r); cbn [List.length]; lia. }
  rewrite G. unfold assigned, sum; simpl. lia.
Qed.

Lemma pixels_named_app (p : dict rgb) (k : string) (r1 r2 : list rgb) :
  pixels_named p k (r1 ++ r2) = pixels_named p k r1 + pixels_named p k r2.
Proof.
  unfold pixels_named. rewrite filter_app, length_app. lia.
Qed.

Lemma pixels_named_perm (p : dict rgb) (k : string) (r1 r2 : list rgb) :
  Permutation r1 r2 -> pixels_named p k r1 = pixels_named p k r2.
Proof.
  unfold pixels_named.
  induction 1 as [| x l l' _ IH | x y l | l l' l'' _ IH1 _ IH2]; cbn [filter].
  - reflexivity.
  - destruct (is_named p k x); cbn [List.length]; lia.
  - destruct (is_named p k x), (is_named p k y); reflexivity.
  - lia.
Qed.

Lemma pixels_named_same (p : dict rgb) (k : string) (c : rgb) (rows : list rgb) :
  Forall (eq c) rows ->
  pixels_named p k rows
  = if is_named p k c then Z.of_nat (List.length rows) else 0.
Proof.
  unfold pixels_named. induction 1 as [| r rows <- _ IH]; cbn [filter].
  - destruct (is_named p k c); reflexivity.
  - destruct (is_named p k c); cbn [List.length]; lia.
Qed.

(** The result is made from the counts of the loop and their total. *)
Lemma classify_ext (h1 h2 : list (rgb * Z)) (p : dict rgb) :
  credit_all p h1 (zero_counts p) = credit_all p h2 (zero_counts p) ->
  sum (map snd h1) = sum (map snd h2) ->
  classify h1 p = classify h2 p.
Proof.
  intros Hc Hs. unfold classify.
  rewrite !count_loop_ok by (intros k; apply zero_counts_keys_in).
  now rewrite Hc, Hs.
Qed.

Lemma analyze_ok_counts (data : list (list rgb)) (p : dict rgb)
  (counts : dict Z) (percentages : dict string) :
  analyze_image_colors data p = Ok (counts, percentages) ->
  counts = credit_all p (histogram (reshape data)) (zero_counts p).
Proof.
  rewrite analyze_classify. unfold classify.
  rewrite count_loop_ok by (intros k; apply zero_counts_keys_in). cbn [bind].
  destruct (for_each (percent_item _) _ []) as [pc | e]; cbn [bind];
    [| discriminate].
  now intros [= <- _].
Qed.

Lemma no_pixel_iff (rows : list rgb) :
  sum (map snd (histogram rows)) = 0 <-> rows = [].
Proof.
  rewrite histogram_sum. destruct rows; simpl; split; try reflexivity;
    try discriminate; lia.
Qed.

Lemma analyze_raise_cases (data : list (list rgb)) (target_colors : dict rgb)
  (e : exn) :
  analyze_image_colors data target_colors = Raise e
  <-> e = ZeroDivisionError /\ reshape data = [] /\ target_colors <> [].
Proof.
  rewrite analyze_classify.
  destruct target_colors as [| entry p].
  - rewrite classify_no_palette. split; [discriminate | intros (_ & _ & H)].
    now contradiction H.
  - destruct (reshape data) as [| r rows] eqn:Hrows.
    + rewrite classify_no_pixel by (reflexivity || discriminate).
      split; [intros [= <-] | intros (-> & _ & _)]; repeat split; discriminate.
    + rewrite classify_ok.
      * split; [discriminate | intros (_ & H & _); discriminate H].
      * intros H. apply no_pixel_iff in H. discriminate H.
Qed.

(** X4: the exceptions of [analyze_image_colors], decoder included and
    under either promotion (under the one of NumPy 1.x for a palette of
    8-bit colours).  The call raises what the decoder raises; for a decoded
    image without a pixel and a palette with an entry it raises
    [ZeroDivisionError]; under the promotion of NumPy 2, for a decoded
    image with a pixel and a palette with a component outside [0, 255], it
    raises [OverflowError]; and it raises in no other case, so the update
    of [color_counts] never raises [KeyError]. *)
Theorem analyze_image_path_raises_iff (np : promotion)
  (open_image : string -> result (list (list rgb)))
  (image_path : string) (target_colors : dict rgb) (e : exn) :
  (np = ValueBased -> palette_in_u8 target_colors = true) ->
  (analyze_image_path_np np open_image image_path target_colors = Raise e
   <-> open_image image_path = Raise e
       \/ exists data,
            open_image image_path = Ok data
            /\ (e = ZeroDivisionError /\ reshape data = []
                /\ target_colors <> []
                \/ e = OverflowError /\ np = WeakScalar
                   /\ reshape data <> []
                   /\ palette_in_u8 target_colors = false)).
Proof.
  intros _. unfold analyze_image_path_np.
  destruct (open_image image_path) as [data | e0]; cbn [bind].
  - rewrite analyze_np_classify.
    assert (Hcase : (np = WeakScalar -> palette_in_u8 target_colors = true)
                    \/ (np = WeakScalar /\ palette_in_u8 target_colors = false)).
    { destruct np; [left; discriminate |].
      destruct (palette_in_u8 target_colors); [left | right]; auto. }
    destruct Hcase as [Hp | [-> Hp]].
    + rewrite (classify_np_raise np target_colors _ e Hp), no_pixel_iff.
      split.
      * intros (-> & Hrows & Hne). right. exists data.
        split; [reflexivity | left; auto].
      * intros [H | (data' & [= <-] & [H | (_ & Hnp & _ & Hbad)])];
          [discriminate H | exact H |].
        rewrite (Hp Hnp) in Hbad. discriminate Hbad.
    + destruct (reshape data) as [| r rows] eqn:Hrows.
      * assert (Hne : target_colors <> [])
          by (intros ->; discriminate Hp).
        change (histogram []) with (@nil (rgb * Z)).
        rewrite classify_np_nil, classify_no_pixel by (reflexivity || exact Hne).
        split.
        -- intros [= <-]. right. exists data.
           split; [reflexivity | left; rewrite Hrows; auto].
        -- intros [H | (data' & [= <-] & [(-> & _) | (_ & _ & Hr & _)])];
             [discriminate H | reflexivity |].
           rewrite Hrows in Hr. now contradiction Hr.
      * rewrite classify_np_overflow;
          [| exact Hp | intros H; apply histogram_nil_iff in H; discriminate H].
        split.
        -- intros [= <-]. right. exists data. split; [reflexivity | right].
           rewrite Hrows. repeat split; [discriminate | exact Hp].
        -- intros [H | (data' & [= <-] & [(_ & Hr & _) | (-> & _)])];
             [discriminate H | | reflexivity].
           rewrite Hrows in Hr. discriminate Hr.
  - split.
    + intros [= <-]. now left.
    + intros [[= <-] | (data & H & _)]; [reflexivity | discriminate H].
Qed.

Lemma analyze_image_path_raises_iff_witness :
  analyze_image_path_np ValueBased example_open "./images/empty.png"%string
    target_colors = Raise ZeroDivisionError
  <-> example_open "./images/empty.png"%string = Raise ZeroDivisionError
      \/ exists data,
           example_open "./images/empty.png"%string = Ok data
           /\ (ZeroDivisionError = ZeroDivisionError /\ reshape data = []
               /\ target_colors <> []
               \/ ZeroDivisionError = OverflowError /\ ValueBased = WeakScalar
                  /\ reshape data <> []
                  /\ palette_in_u8 target_colors = false).
Proof.
  apply (analyze_image_path_raises_iff ValueBased example_open).
  intros _. reflexivity.
Defined.

(** X15: under either promotion, for a palette of 8-bit colours with an
    entry and a grid of [h] rows of [w] pixels, [h] and [w] positive, the
    analysis returns, the keys of the counts are the names of the palette
    and the counts add up to [h * w]. *)
Theorem counts_sum_under_either_promotion (np : promotion)
  (data : list (list rgb)) (target_colors : dict rgb) (h w : nat) :
  palette_in_u8 target_colors = true ->
  wf target_colors ->
  target_colors <> [] ->
  List.length data = h ->
  Forall (fun row => List.length row = w) data ->
  (0 < h)%nat -> (0 < w)%nat ->
  exists counts percentages,
    analyze_image_colors_np np data target_colors = Ok (counts, percentages)
    /\ keys counts = keys target_colors
    /\ sum (values counts) = Z.of_nat (h * w).
Proof.
  intros Hp Hwf Hne Hh Hw Hhpos Hwpos.
  pose proof (grid_total data h w Hh Hw) as Htot.
  destruct (namer_total np target_colors (fun _ => Hp)) as (f & Hf & Hkey & Hsome).
  rewrite analyze_np_classify, (classify_np_closed np target_colors f _ Hf Hkey).
  rewrite percent_loop_ok by (rewrite Htot; nia). cbn [bind].
  eexists; eexists; split; [reflexivity |]. split.
  - rewrite keys_credit_with, zero_counts_wf by exact Hwf.
    unfold keys. rewrite map_map. simpl. apply map_id.
  - rewrite (credit_with_sum target_colors), zero_counts_sum, Htot;
      [lia | now apply Hsome | intros k; apply zero_counts_keys_in].
Qed.

Lemma counts_sum_under_either_promotion_witness :
  exists counts percentages,
    analyze_image_colors_np WeakScalar two_colors target_colors
    = Ok (counts, percentages)
    /\ keys counts = keys target_colors
    /\ sum (values counts) = Z.of_nat (4 * 4).
Proof.
  apply (counts_sum_under_either_promotion WeakScalar two_colors
           target_colors 4 4).
  - reflexivity.
  - unfold wf. vm_compute. repeat constructor; simpl; intuition discriminate.
  - exact target_colors_nonempty.
  - reflexivity.
  - exact two_colors_rows.
  - lia.
  - lia.
Defined.

Lemma pixel_counts (data : list (list rgb))
  (target_colors : dict rgb) :
  reshape data <> [] ->
  exists counts percentages,
    analyze_image_colors data target_colors = Ok (counts, percentages)
    /\ forall name,
         get name counts
         = if mem (Some name) target_colors
           then Some (pixels_named target_colors name (reshape data))
           else None.
Proof.
  intros Hne. rewrite analyze_classify, classify_ok
    by (intros H; apply no_pixel_iff in H; contradiction).
  eexists; eexists; split; [reflexivity |].
  intros name. now rewrite get_counts, assigned_histogram.
Qed.

(** X5: for an image with a pixel, the count under each name of the
    palette is the number of pixels of the image to which
    [get_color_name] gives that name, and the counts hold no other key:
    counting the unique colours with their multiplicities is counting the
    pixels one by one. *)
Theorem counts_are_pixel_counts (data : list (list rgb))
  (target_colors : dict rgb) :
  reshape data <> [] ->
  exists counts percentages,
    analyze_image_colors data target_colors = Ok (counts, percentages)
    /\ forall name,
         get name counts
         = if mem (Some name) target_colors
           then Some (pixels_named target_colors name (reshape data))
           else None.
Proof. exact (pixel_counts data target_colors). Qed.

Lemma counts_are_pixel_counts_witness :
  exists counts percentages,
    analyze_image_colors two_colors target_colors = Ok (counts, percentages)
    /\ forall name,
         get name counts
         = if mem (Some name) target_colors
           then Some (pixels_named target_colors name (reshape two_colors))
           else None.
Proof.
  apply (counts_are_pixel_counts two_colors target_colors).
  vm_compute. discriminate.
Defined.

(** X6: the result depends on the pixels of the image only through how
    often each colour comes up: two arrays whose pixels are a permutation
    of each other (a flipped, rotated or reshaped image) have the same
    result. *)
Theorem result_invariant_under_pixel_order (data data' : list (list rgb))
  (target_colors : dict rgb) :
  Permutation (reshape data) (reshape data') ->
  analyze_image_colors data target_colors
  = analyze_image_colors data' target_colors.
Proof.
  intros Hperm. rewrite !analyze_classify. apply classify_ext.
  - apply dict_ext.
    + apply credit_all_wf.
    + now rewrite !keys_credit_all.
    + intros k. rewrite !get_counts, !assigned_histogram.
      now rewrite (pixels_named_perm _ _ _ _ Hperm).
  - rewrite !histogram_sum. now rewrite (Permutation_length Hperm).
Qed.

Lemma result_invariant_under_pixel_order_witness :
  analyze_image_colors [[(1, 1, 1); (255, 255, 255)]] target_colors
  = analyze_image_colors [[(255, 255, 255)]; [(1, 1, 1)]] target_colors.
Proof.
  apply (result_invariant_under_pixel_order
           [[(1, 1, 1); (255, 255, 255)]] [[(255, 255, 255)]; [(1, 1, 1)]]).
  simpl. apply perm_swap.
Defined.

(** X7: when two images are analysed without an exception, so is the
    image made of the rows of the first followed by the rows of the
    second, and each of its counts is the sum of the counts of the two. *)
Theorem stacked_images_add_counts (data1 data2 : list (list rgb))
  (target_colors : dict rgb) (counts1 counts2 : dict Z)
  (percentages1 percentages2 : dict string) :
  analyze_image_colors data1 target_colors = Ok (counts1, percentages1) ->
  analyze_image_colors data2 target_colors = Ok (counts2, percentages2) ->
  exists counts percentages,
    analyze_image_colors (data1 ++ data2) target_colors
    = Ok (counts, percentages)
    /\ keys counts = keys counts1
    /\ forall name v1 v2,
         get name counts1 = Some v1 -> get name counts2 = Some v2 ->
         get name counts = Some (v1 + v2).
Proof.
  intros H1 H2.
  destruct (analyze_image_colors (data1 ++ data2) target_colors)
    as [[counts percentages] | e] eqn:H.
  - exists counts, percentages. split; [reflexivity |].
    apply analyze_ok_counts in H, H1, H2. subst. split.
    + now rewrite !keys_credit_all.
    + intros name v1 v2. rewrite !get_counts, !assigned_histogram.
      unfold reshape. rewrite concat_app, pixels_named_app.
      destruct (mem (Some name) target_colors); [| discriminate].
      now intros [= <-] [= <-].
  - exfalso. apply analyze_raise_cases in H as (_ & Hrows & Hp).
    unfold reshape in Hrows. rewrite concat_app in Hrows.
    apply app_eq_nil in Hrows as [Hrows _].
    assert (R : analyze_image_colors data1 target_colors = Raise ZeroDivisionError)
      by (apply analyze_raise_cases; repeat split; assumption).
    rewrite R in H1. discriminate H1.
Qed.

Lemma stacked_images_add_counts_witness :
  exists counts percentages,
    analyze_image_colors (monochrome ++ two_colors) target_colors
    = Ok (counts, percentages)
    /\ keys counts
       = keys [("hotpink", 0); ("darkcyan", 0); ("lightgray", 0); ("blue", 0);
               ("white", 100)]%string
    /\ forall name v1 v2,
         get name [("hotpink", 0); ("darkcyan", 0); ("lightgray", 0);
                   ("blue", 0); ("white", 100)]%string = Some v1 ->
         get name [("hotpink", 12); ("darkcyan", 4); ("lightgray", 0);
                   ("blue", 0); ("white", 0)]%string = Some v2 ->
         get name counts = Some (v1 + v2).
Proof.
  eapply (stacked_images_add_counts monochrome two_colors target_colors).
  - exact monochrome_result.
  - exact two_colors_result.
Defined.

(** X8: in an image of [h] rows of [w] pixels, [h] and [w] positive, that
    are all of one colour, all [h * w] pixels are counted under the name
    [get_color_name] gives to the colour, and every other name of the
    palette has the count 0. *)
Theorem single_colour_image (data : list (list rgb))
  (target_colors : dict rgb) (c : rgb) (h w : nat) :
  target_colors <> [] ->
  List.length data = h ->
  Forall (eq (repeat c w)) data ->
  (0 < h)%nat -> (0 < w)%nat ->
  exists name counts percentages,
    get_color_name c target_colors = Some name
    /\ analyze_image_colors data target_colors = Ok (counts, percentages)
    /\ get name counts = Some (Z.of_nat (h * w))
    /\ forall other, other <> name -> In other (keys target_colors) ->
                     get other counts = Some 0.
Proof.
  intros Hne Hh Hrows Hhpos Hwpos.
  assert (Hall : Forall (eq c) (reshape data)).
  { unfold reshape. clear Hh. induction Hrows as [| row data <- _ IH]; simpl.
    - constructor.
    - apply Forall_app. split; [| exact IH].
      apply Forall_forall. intros x Hx. symmetry. exact (repeat_spec _ _ _ Hx). }
  assert (Hlen : List.length (reshape data) = (h * w)%nat).
  { rewrite (reshape_length data w), Hh; [reflexivity |].
    clear - Hrows. induction Hrows as [| row data <- _ IH]; constructor;
      [apply repeat_length | exact IH]. }
  assert (Hpix : reshape data <> []).
  { intros E. rewrite E in Hlen. simpl in Hlen. nia. }
  destruct (get_color_name_in c target_colors Hne) as (name & Hget & Hin).
  destruct (pixel_counts data target_colors Hpix)
    as (counts & percentages & Hok & Hcounts).
  exists name, counts, percentages.
  split; [exact Hget |]. split; [exact Hok |]. split.
  - rewrite Hcounts. apply mem_in in Hin. rewrite Hin.
    rewrite (pixels_named_same _ _ c _ Hall). unfold is_named.
    now rewrite Hget, String.eqb_refl, Hlen.
  - intros other Hother Hino. rewrite Hcounts. apply mem_in in Hino.
    rewrite Hino, (pixels_named_same _ _ c _ Hall). unfold is_named.
    rewrite Hget. destruct (String.eqb_spec name other); [congruence | reflexivity].
Qed.

Lemma single_colour_image_witness :
  exists name counts percentages,
    get_color_name (255, 255, 255) target_colors = Some name
    /\ analyze_image_colors monochrome target_colors = Ok (counts, percentages)
    /\ get name counts = Some (Z.of_nat (10 * 10))
    /\ forall other, other <> name -> In other (keys target_colors) ->
                     get other counts = Some 0.
Proof.
  apply (single_colour_image monochrome target_colors (255, 255, 255) 10 10).
  - exact target_colors_nonempty.
  - reflexivity.
  - repeat constructor.
  - lia.
  - lia.
Defined.

(** ** The file filter *)

Lemma endswith_iff (s suffix : string) :
  endswith s suffix = true <-> exists stem, s = (stem ++ suffix)%string.
Proof.
  split.
  - induction s as [| c s IH]; cbn [endswith].
    + destruct (String.eqb_spec EmptyString suffix) as [<- | _];
        [| discriminate].
      intros _. now exists EmptyString.
    + destruct (String.eqb_spec (String c s) suffix) as [<- | _].
      * intros _. now exists EmptyString.
      * intros H. destruct (IH H) as [stem ->]. now exists (String c stem).
  - intros [stem ->]. induction stem as [| c stem IH]; cbn [append].
    + destruct suffix; cbn [endswith]; now rewrite String.eqb_refl.
    + cbn [endswith].
      destruct (String.eqb (String c (stem ++ suffix)) suffix);
        [reflexivity | exact IH].
Qed.

Lemma lower_app (a b : string) : lower (a ++ b) = (lower a ++ lower b)%string.
Proof. induction a as [| c a IH]; simpl; [reflexivity | now rewrite IH]. Qed.

Lemma lower_split (f x y : string) :
  lower f = (x ++ y)%string ->
  exists a b, f = (a ++ b)%string /\ lower a = x /\ lower b = y.
Proof.
  revert f; induction x as [| c x IH]; intros f H.
  - exists EmptyString, f. repeat split. exact H.
  - destruct f as [| d f]; [discriminate H |].
    simpl in H. injection H as Hc H.
    destruct (IH f H) as (a & b & -> & Ha & Hb).
    exists (String d a), b. simpl. repeat split; [now rewrite Hc, Ha | exact Hb].
Qed.

(** X9: a name of the directory is taken exactly when it ends in [.png]
    written in any mix of upper and lower case: it is a stem followed by
    an extension whose lower-case form is [.png]. *)
Theorem is_png_iff (f : string) :
  is_png f = true
  <-> exists stem ext, f = (stem ++ ext)%string /\ lower ext = ".png"%string.
Proof.
  unfold is_png. rewrite endswith_iff. split.
  - intros [x Hx]. destruct (lower_split f x ".png" Hx) as (a & b & -> & _ & Hb).
    now exists a, b.
  - intros (stem & ext & -> & Hext). exists (lower stem).
    now rewrite lower_app, Hext.
Qed.

(** ** The rows of the table *)

Lemma headers_length (p : dict rgb) :
  List.length (headers p) = (1 + 2 * List.length p)%nat.
Proof.
  unfold headers, keys. rewrite !length_app, !length_map. simpl. lia.
Qed.

Lemma row_length (f : string) (p : dict rgb) (c : dict Z) (q : dict string) :
  List.length (row f p c q) = (1 + 2 * List.length p)%nat.
Proof.
  unfold row, keys. rewrite !length_app, !length_map. simpl. lia.
Qed.

Lemma write_rows_app (open_image : string -> result (list (list rgb)))
  (dir : string) (p : dict rgb) (l1 l2 : list string)
  (written : list (list cell)) :
  write_rows open_image dir p (l1 ++ l2) written
  = match write_rows open_image dir p l1 written with
    | (written', Ok _) => write_rows open_image dir p l2 written'
    | (written', Raise e) => (written', Raise e)
    end.
Proof.
  revert written; induction l1 as [| f l1 IH]; intros written; simpl.
  - reflexivity.
  - destruct (analyze_image_path open_image (path_join dir f) p)
      as [[c q] | e]; [apply IH | reflexivity].
Qed.

Lemma write_rows_forall (P : list cell -> Prop)
  (open_image : string -> result (list (list rgb)))
  (dir : string) (p : dict rgb) (files : list string)
  (written : list (list cell)) :
  (forall f c q, P (row f p c q)) ->
  Forall P written ->
  Forall P (fst (write_rows open_image dir p files written)).
Proof.
  intros Hrow. revert written; induction files as [| f files IH];
    intros written Hw; simpl.
  - exact Hw.
  - destruct (analyze_image_path open_image (path_join dir f) p)
      as [[c q] | e]; [| exact Hw].
    apply IH, Forall_app. split; [exact Hw | constructor; [apply Hrow | constructor]].
Qed.

(** X10: whatever the files hold and however the call ends, the table
    handed to the writer is rectangular: the header and every row have one
    cell for the file name and two cells for each entry of the palette. *)
Theorem table_is_rectangular
  (open_image : string -> result (list (list rgb)))
  (listdir : list string) (directory_path : string)
  (target_colors : dict rgb) :
  Forall (fun r => List.length r = (1 + 2 * List.length target_colors)%nat)
    (fst (process_directory open_image listdir directory_path target_colors)).
Proof.
  unfold process_directory. apply write_rows_forall.
  - intros f c q. apply row_length.
  - constructor; [apply headers_length | constructor].
Qed.

Lemma get_default_keys {V : Type} (dflt : V) (d : dict V) :
  wf d -> map (fun k => get_default k dflt d) (keys d) = values d.
Proof.
  intros Hwf. unfold keys, values. rewrite map_map. apply map_ext_in.
  intros [k v] Hin. unfold get_default. cbn [fst snd].
  now rewrite (in_get k v d Hwf Hin).
Qed.

Lemma analyze_ok_percentages (data : list (list rgb)) (p : dict rgb)
  (counts : dict Z) (percentages : dict string) :
  analyze_image_colors data p = Ok (counts, percentages) ->
  exists t, percentages = map (percent_entry t) counts.
Proof.
  rewrite analyze_classify.
  destruct (Z.eq_dec (sum (map snd (histogram (reshape data)))) 0) as [Hz | Hnz].
  - destruct p as [| entry p].
    + rewrite classify_no_palette. intros [= <- <-]. now exists 0.
    + rewrite classify_no_pixel by (assumption || discriminate). discriminate.
  - rewrite classify_ok by exact Hnz. intros [= <- <-]. eexists. reflexivity.
Qed.

(** The defaults of the two [get] calls are never used: the cells of a
    row are the values of the two dictionaries, in their order. *)
Lemma row_values (f : string) (data : list (list rgb)) (p : dict rgb)
  (counts : dict Z) (percentages : dict string) :
  wf p ->
  analyze_image_colors data p = Ok (counts, percentages) ->
  row f p counts percentages
  = [Text f] ++ map Text (values percentages) ++ map Number (values counts).
Proof.
  intros Hwf Hok.
  destruct (analyze_ok_percentages _ _ _ _ Hok) as [t ->].
  pose proof (analyze_ok_counts _ _ _ _ Hok) as Hc.
  assert (Hk : keys counts = keys p) by (subst counts; now apply counts_keys).
  assert (Hwc : wf counts) by (unfold wf; now rewrite Hk).
  unfold row. rewrite <- Hk. f_equal. f_equal.
  - unfold keys, values. rewrite !map_map. apply map_ext_in.
    intros [k v] Hin. cbn [fst snd]. unfold get_default.
    now rewrite (get_percent t counts k v (in_get k v counts Hwc Hin)).
  - rewrite <- (get_default_keys 0 counts Hwc), map_map. reflexivity.
Qed.

(** X11: when every [.png] file of the directory decodes to an image with
    a pixel, the call ends without an exception and the table is the
    header followed by one row for each [.png] file, in the order of the
    listing; a row is the file name, the percentages of the image and its
    counts, in the order of the palette, and no cell is a default of the
    two [get] calls. *)
Theorem all_images_give_rows
  (open_image : string -> result (list (list rgb)))
  (listdir : list string) (directory_path : string)
  (target_colors : dict rgb) :
  wf target_colors ->
  (forall f, In f listdir -> is_png f = true ->
     exists data, open_image (path_join directory_path f) = Ok data
                  /\ reshape data <> []) ->
  process_directory open_image listdir directory_path target_colors
  = (headers target_colors
       :: map (image_row open_image directory_path target_colors)
            (filter is_png listdir),
     Ok tt).
Proof.
  intros Hwf Hall. unfold process_directory.
  assert (Hfiles : forall f, In f (filter is_png listdir) ->
            exists data, open_image (path_join directory_path f) = Ok data
                         /\ reshape data <> []).
  { intros f Hf. apply filter_In in Hf as [Hin Hpng]. now apply Hall. }
  clear Hall. generalize dependent (filter is_png listdir). intros files Hfiles.
  assert (G : forall written,
             write_rows open_image directory_path target_colors files written
             = (written ++ map (image_row open_image directory_path target_colors)
                             files, Ok tt)).
  { induction files as [| f files IH]; intros written.
    - simpl. now rewrite app_nil_r.
    - destruct (Hfiles f (or_introl eq_refl)) as (data & Hopen & Hpix).
      assert (Hpath : analyze_image_path open_image
                        (path_join directory_path f) target_colors
                      = analyze_image_colors data target_colors)
        by (unfold analyze_image_path; now rewrite Hopen).
      cbn [write_rows map]. rewrite Hpath.
      destruct (analyze_image_colors data target_colors)
        as [[c q] | e] eqn:Hok.
      + rewrite IH by (intros g Hg; apply Hfiles; now right).
        rewrite (row_values f data target_colors c q Hwf Hok).
        assert (Hrow : image_row open_image directory_path target_colors f
                       = [Text f] ++ map Text (values q) ++ map Number (values c))
          by (unfold image_row; now rewrite Hpath).
        now rewrite Hrow, <- app_assoc.
      + exfalso. apply analyze_raise_cases in Hok as (_ & Hrows & _).
        contradiction. }
  rewrite G. reflexivity.
Qed.

Lemma all_images_give_rows_witness :
  process_directory example_open
    ["white.png"; "notes.txt"; "Card.PNG"]%string "./images/"%string
    target_colors
  = (headers target_colors
       :: map (image_row example_open "./images/"%string target_colors)
            (filter is_png ["white.png"; "notes.txt"; "Card.PNG"]%string),
     Ok tt).
Proof.
  apply (all_images_give_rows example_open).
  - unfold wf. vm_compute. repeat constructor; simpl; intuition discriminate.
  - intros f [<- | [<- | [<- | []]]] Hpng.
    + exists monochrome. split; [reflexivity | vm_compute; discriminate].
    + vm_compute in Hpng. discriminate Hpng.
    + exists two_colors. split; [reflexivity | vm_compute; discriminate].
Defined.

(** X12: the first [.png] file whose decoding or analysis raises ends the
    call with that exception: the table holds the header and the rows of
    the files before it, and the files after it are not looked at. *)
Theorem first_failure_ends_the_batch
  (open_image : string -> result (list (list rgb)))
  (before after : list string) (f directory_path : string)
  (target_colors : dict rgb) (rows : list (list cell)) (e : exn) :
  process_directory open_image before directory_path target_colors
  = (rows, Ok tt) ->
  is_png f = true ->
  analyze_image_path open_image (path_join directory_path f) target_colors
  = Raise e ->
  process_directory open_image (before ++ f :: after) directory_path
    target_colors
  = (rows, Raise e).
Proof.
  unfold process_directory. intros Hbefore Hpng Hraise.
  rewrite filter_app, write_rows_app, Hbefore.
  cbn [filter]. rewrite Hpng. cbn [write_rows]. now rewrite Hraise.
Qed.

Lemma first_failure_ends_the_batch_witness :
  process_directory example_open
    (["white.png"]%string ++ "empty.png"%string :: ["Card.PNG"]%string)
    "./images/"%string target_colors
  = ([headers target_colors;
      image_row example_open "./images/"%string target_colors "white.png"%string],
     Raise ZeroDivisionError).
Proof.
  apply (first_failure_ends_the_batch example_open ["white.png"]%string);
    vm_compute; reflexivity.
Defined.

(** X13: a directory without a [.png] file gives a table that is the
    header alone; no file is opened and nothing is raised. *)
Theorem no_png_gives_header_only
  (open_image : string -> result (list (list rgb)))
  (listdir : list string) (directory_path : string)
  (target_colors : dict rgb) :
  (forall f, In f listdir -> is_png f = false) ->
  process_directory open_image listdir directory_path target_colors
  = ([headers target_colors], Ok tt).
Proof.
  intros Hnone. unfold process_directory.
  assert (E : filter is_png listdir = []).
  { induction listdir as [| f l IH]; [reflexivity |]. cbn [filter].
    rewrite (Hnone f (or_introl eq_refl)). apply IH.
    intros g Hg. apply Hnone. now right. }
  now rewrite E.
Qed.

Lemma no_png_gives_header_only_witness :
  process_directory (fun _ => Raise TypeError)
    ["notes.txt"; "card.jpg"; "png"]%string "./images/"%string target_colors
  = ([headers target_colors], Ok tt).
Proof.
  apply (no_png_gives_header_only (fun _ => Raise TypeError)).
  intros f [<- | [<- | [<- | []]]]; reflexivity.
Defined.

Lemma numbers_app (r1 r2 : list cell) :
  numbers (r1 ++ r2) = numbers r1 ++ numbers r2.
Proof.
  induction r1 as [| [s | z] r1 IH]; simpl; [reflexivity | exact IH |].
  now rewrite IH.
Qed.

Lemma numbers_text (l : list string) : numbers (map Text l) = [].
Proof. induction l as [| s l IH]; simpl; [reflexivity | exact IH]. Qed.

Lemma numbers_number (l : list Z) : numbers (map Number l) = l.
Proof. induction l as [| z l IH]; simpl; [reflexivity | now rewrite IH]. Qed.

(** X14: for a palette with an entry, the integer cells of the row of an
    image that was analysed without an exception add up to the number of
    pixels of the image. *)
Theorem row_counts_sum_to_pixels (filename : string) (data : list (list rgb))
  (target_colors : dict rgb) (counts : dict Z) (percentages : dict string) :
  wf target_colors ->
  target_colors <> [] ->
  analyze_image_colors data target_colors = Ok (counts, percentages) ->
  sum (numbers (row filename target_colors counts percentages))
  = Z.of_nat (List.length (reshape data)).
Proof.
  intros Hwf Hne Hok.
  rewrite (row_values filename data target_colors counts percentages Hwf Hok).
  rewrite !numbers_app, numbers_text, numbers_number. cbn [numbers app].
  rewrite (analyze_ok_counts _ _ _ _ Hok).
  rewrite credit_all_sum, zero_counts_sum, histogram_sum;
    [lia | exact Hne | intros k; apply zero_counts_keys_in].
Qed.

Lemma row_counts_sum_to_pixels_witness :
  sum (numbers (row "Card.PNG"%string target_colors
                  [("hotpink", 12); ("darkcyan", 4); ("lightgray", 0);
                   ("blue", 0); ("white", 0)]%string
                  [("hotpink_percent", "0.750000");
                   ("darkcyan_percent", "0.250000");
                   ("lightgray_percent", "0.000000");
                   ("blue_percent", "0.000000");
                   ("white_percent", "0.000000")]%string))
  = Z.of_nat (List.length (reshape two_colors)).
Proof.
  apply (row_counts_sum_to_pixels "Card.PNG"%string two_colors target_colors).
  - unfold wf. vm_compute. repeat constructor; simpl; intuition discriminate.
  - exact target_colors_nonempty.
  - exact two_colors_result.
Defined.
